(** * Icon set generator ([Scripts/generate-icon.py])

    A shallow embedding of the script that renders an upside-down triangle
    as SVG text at seven sizes and writes the texts into an iconset
    directory, followed by the properties of its output.

    The script computes with Python integers and Python floats and formats
    both into text, so the embedding has three layers:
    - [PyFloat]: binary64 arithmetic (on [spec_float], the executable
      IEEE 754 model of the Standard Library), the conversions from [int]
      and the text a float is printed as;
    - [PyStr]: [str] of an integer and [str.format] with keyword fields;
    - [Script]: the file system, the exception-and-state monad the script
      body runs in, and the script itself. *)

From Stdlib Require Import ZArith String Ascii Bool Lia.
From Stdlib Require Import SpecFloat DecimalString DecimalZ DecimalPos.
From stdpp Require Import gmap strings list fin_maps.

Open Scope Z_scope.

(** ** Exceptions and results *)

(** The exceptions the modelled fragment can raise. *)
Inductive exn : Type :=
| ZeroDivisionError
| OverflowError
| KeyError (key : string)
| ValueError
| IndexError
| OSError.

(** A computation either returns a value or raises. *)
Inductive result (A : Type) : Type :=
| Returns (a : A)
| Raises (e : exn).
Arguments Returns {A} a.
Arguments Raises {A} e.

Definition rbind {A B} (r : result A) (k : A -> result B) : result B :=
  match r with
  | Returns a => k a
  | Raises e => Raises e
  end.

Definition rmap {A B} (f : A -> B) (r : result A) : result B :=
  rbind r (fun a => Returns (f a)).

(** ** Python floats *)

Module PyFloat.

(** [float] is IEEE 754 binary64. *)
Definition prec : Z := 53.
Definition emax : Z := 1024.

Definition is_finite (x : spec_float) : bool :=
  match x with
  | S754_zero _ | S754_finite _ _ _ => true
  | S754_infinity _ | S754_nan => false
  end.

(** Structural equality; on the canonical values the operations return
    it is equality of floats with -0.0 and 0.0 kept apart. *)
Definition same (x y : spec_float) : bool :=
  match x, y with
  | S754_zero s, S754_zero t => Bool.eqb s t
  | S754_infinity s, S754_infinity t => Bool.eqb s t
  | S754_nan, S754_nan => true
  | S754_finite s m e, S754_finite t n f =>
      Bool.eqb s t && Pos.eqb m n && Z.eqb e f
  | _, _ => false
  end.

(** An integer as an unrounded mantissa with exponent 0. *)
Definition exact (z : Z) : spec_float :=
  match z with
  | Z0 => S754_zero false
  | Zpos p => S754_finite false p 0
  | Zneg p => S754_finite true p 0
  end.

(** [float(z)] as used when an [int] meets a [float] operand: the
    nearest binary64, ties to even; too large an integer raises. *)
Definition of_int (z : Z) : result spec_float :=
  let f := binary_normalize prec emax z 0 false in
  if is_finite f then Returns f else Raises OverflowError.

(** [a / b] on two [int]s: the correctly rounded quotient. *)
Definition int_truediv (a b : Z) : result spec_float :=
  if b =? 0 then Raises ZeroDivisionError
  else
    let q := SFdiv prec emax (exact a) (exact b) in
    if is_finite q then Returns q else Raises OverflowError.

(** [x * y] on two floats. *)
Definition mul (x y : spec_float) : spec_float := SFmul prec emax x y.

(** [z * y] with [z] an [int] and [y] a float. *)
Definition int_mul (z : Z) (y : spec_float) : result spec_float :=
  rmap (fun x => mul x y) (of_int z).

(** The value of a decimal literal or decimal text [d * 10^q] with
    [0 <= d]: the nearest binary64. *)
Definition of_decimal (d q : Z) : spec_float :=
  if 0 <=? q then binary_normalize prec emax (d * 10 ^ q) 0 false
  else SFdiv prec emax (exact d) (exact (10 ^ (- q))).

(** *** Printing

    [repr] of a finite nonzero float is the shortest string of decimal
    digits that reads back as the same float, the nearest to the float's
    exact value when several of that length do. *)

(** Number of decimal digits of [n >= 1]. *)
Fixpoint ndigits10_fuel (fuel : nat) (n : Z) : Z :=
  match fuel with
  | O => 1
  | S fuel' => if n <? 10 then 1 else 1 + ndigits10_fuel fuel' (n / 10)
  end.

Definition ndigits10 (n : Z) : Z :=
  ndigits10_fuel (Z.to_nat (Z.log2 n)) n.

(** The least exponent from [j] on with [den <= num * 10^j]. *)
Fixpoint lead_scale (fuel : nat) (num den j : Z) : Z :=
  match fuel with
  | O => j
  | S fuel' =>
      if den <=? num * 10 ^ j then j else lead_scale fuel' num den (j + 1)
  end.

(** The position [k] of the decimal point of [num/den > 0]:
    [10^(k-1) <= num/den < 10^k]. *)
Definition decimal_point (num den : Z) : Z :=
  if den <=? num then ndigits10 (num / den)
  else 1 - lead_scale (Z.to_nat (Z.log2 den) + 1) num den 1.

(** The [n]-digit decimals next to [num/den], kept when they read back as
    [x]; of two that do, the nearer one, the even one on a tie. Returns
    [(d, q)] for the decimal [d * 10^q]. *)
Definition round_trip_at (x : spec_float) (num den k n : Z)
  : option (Z * Z) :=
  let q := k - n in
  let N := if 0 <=? q then num else num * 10 ^ (- q) in
  let D := if 0 <=? q then den * 10 ^ q else den in
  let lo := N / D in
  let r := N mod D in
  let hi := lo + 1 in
  let lo_ok := (0 <? lo) && same (of_decimal lo q) x in
  let hi_ok := negb (r =? 0) && same (of_decimal hi q) x in
  match lo_ok, hi_ok with
  | true, true =>
      match 2 * r ?= D with
      | Lt => Some (lo, q)
      | Gt => Some (hi, q)
      | Eq => Some (if Z.even lo then lo else hi, q)
      end
  | true, false => Some (lo, q)
  | false, true => Some (hi, q)
  | false, false => None
  end.

(** Try 1, 2, ... digits; 17 always suffice for binary64. *)
Fixpoint shortest_from (fuel : nat) (x : spec_float) (num den k n : Z)
  : Z * Z :=
  match fuel with
  | O => (num / den, 0)
  | S fuel' =>
      match round_trip_at x num den k n with
      | Some dq => dq
      | None => shortest_from fuel' x num den k (n + 1)
      end
  end.

(** Drop trailing zero digits of [d * 10^q]. *)
Fixpoint strip_zeros (fuel : nat) (d q : Z) : Z * Z :=
  match fuel with
  | O => (d, q)
  | S fuel' =>
      if (d mod 10 =? 0) && (0 <? d) then strip_zeros fuel' (d / 10) (q + 1)
      else (d, q)
  end.

(** Digits and decimal-point position of the shortest decimal of the
    positive float [m * 2^e]. *)
Definition shortest (m : positive) (e : Z) : Z * Z :=
  let num := if 0 <=? e then Zpos m * 2 ^ e else Zpos m in
  let den := if 0 <=? e then 1 else 2 ^ (- e) in
  let k := decimal_point num den in
  let '(d, q) := shortest_from 17 (S754_finite false m e) num den k 1 in
  let '(d', q') := strip_zeros 17 d q in
  (d', q' + ndigits10 d').

End PyFloat.

(** ** Python text *)

Module PyStr.

(** Decimal digits of [n >= 0]. *)
Definition digits (n : Z) : string :=
  NilZero.string_of_uint (N.to_uint (Z.to_N n)).

(** [str(z)] for an [int]. *)
Definition of_int (z : Z) : string := NilZero.string_of_int (Z.to_int z).

Fixpoint zeros (n : nat) : string :=
  match n with
  | O => EmptyString
  | S n' => String "0" (zeros n')
  end.

(** [repr] of the positive finite float [m * 2^e]: fixed notation when
    the decimal point falls in [-3 .. 16], with [.0] after an integer,
    and exponent notation with at least two exponent digits otherwise. *)
Definition repr_finite (m : positive) (e : Z) : string :=
  let '(d, decpt) := PyFloat.shortest m e in
  let ds := digits d in
  let nd := Z.of_nat (String.length ds) in
  if (decpt <=? -4) || (16 <? decpt) then
    let ex := decpt - 1 in
    let mant :=
      match ds with
      | String c EmptyString => ds
      | String c rest => String c ("." +:+ rest)
      | EmptyString => ds
      end in
    let exd := digits (Z.abs ex) in
    mant +:+ "e" +:+ (if ex <? 0 then "-" else "+")
         +:+ (if Z.abs ex <? 10 then "0" +:+ exd else exd)
  else if decpt <=? 0 then
    "0." +:+ zeros (Z.to_nat (- decpt)) +:+ ds
  else if nd <=? decpt then
    ds +:+ zeros (Z.to_nat (decpt - nd)) +:+ ".0"
  else
    substring 0 (Z.to_nat decpt) ds +:+ "."
      +:+ substring (Z.to_nat decpt) (Z.to_nat (nd - decpt)) ds.

(** [repr(x)], which is also [str(x)] and [format(x, '')]. *)
Definition of_float (x : spec_float) : string :=
  match x with
  | S754_zero s => if s then "-0.0" else "0.0"
  | S754_infinity s => if s then "-inf" else "inf"
  | S754_nan => "nan"
  | S754_finite s m e => (if s then "-" else "") +:+ repr_finite m e
  end.

(** The values the script formats. *)
Inductive value : Type :=
| VInt (z : Z)
| VFloat (x : spec_float).

Definition str (v : value) : string :=
  match v with
  | VInt z => of_int z
  | VFloat x => of_float x
  end.

Fixpoint lookup_kw (kw : list (string * value)) (name : string)
  : option value :=
  match kw with
  | [] => None
  | (k, v) :: kw' => if String.eqb k name then Some v else lookup_kw kw' name
  end.

(** A replacement field [{name}] filled from the keyword arguments. An
    empty name asks for a positional argument, and [format] is called
    with none. *)
Definition fill (kw : list (string * value)) (name : string)
  : result string :=
  match name with
  | EmptyString => Raises IndexError
  | _ =>
      match lookup_kw kw name with
      | Some v => Returns (str v)
      | None => Raises (KeyError name)
      end
  end.

(** [template.format] with keyword arguments [kw], for templates whose
    fields are plain keyword names: literal text is copied, [{{] and [}}]
    stand for one brace, [{name}] is replaced by [str] of the argument.
    [field] is [None] while reading literal text and holds the name read so
    far inside a replacement field. *)
Fixpoint format_from (field : option string) (t : string)
                     (kw : list (string * value)) : result string :=
  match field, t with
  | None, EmptyString => Returns EmptyString
  | None, String "{" (String "{" t') =>
      rmap (String "{") (format_from None t' kw)
  | None, String "{" t' => format_from (Some EmptyString) t' kw
  | None, String "}" (String "}" t') =>
      rmap (String "}") (format_from None t' kw)
  | None, String "}" _ => Raises ValueError
  | None, String c t' => rmap (String c) (format_from None t' kw)
  | Some _, EmptyString => Raises ValueError
  | Some name, String "}" t' =>
      rbind (fill kw name) (fun s =>
      rmap (String.append s) (format_from None t' kw))
  | Some name, String c t' =>
      format_from (Some (name +:+ String c EmptyString)) t' kw
  end.

Definition format (t : string) (kw : list (string * value))
  : result string :=
  format_from None t kw.

End PyStr.

(** ** The script *)

Module Script.
Import PyStr.

(** *** File system and process state *)

(** An absolute path, as its components below the file system root. *)
Definition path : Type := list string.

(** [p.parent]; the root is its own parent. *)
Definition parent (p : path) : path := removelast p.

(** [p / name] for a single component [name]. *)
Definition join (p : path) (name : string) : path := p ++ [name].

(** [str(p)]. *)
Definition path_text (p : path) : string :=
  match p with
  | [] => "/"
  | _ => String.concat "" (map (String.append "/") p)
  end.

(** [p] and the directories above it. *)
Fixpoint prefixes (p : path) : list path :=
  match p with
  | [] => [[]]
  | c :: p' => [] :: map (cons c) (prefixes p')
  end.

(** The system calls the script makes: [mkdir(parents=True,
    exist_ok=True)], [open(p, 'w')] and [f.write(text)] on the file
    opened at [p]. *)
Inductive io_op : Type :=
| Mkdir (p : path)
| Open (p : path)
| Write (p : path) (text : string).

(** Directories, file contents, the lines printed so far, and the system
    calls attempted so far with whether each succeeded. *)
Record world : Type := World {
  dirs : gset path;
  files : gmap path string;
  stdout : list string;
  trace : list (io_op * bool)
}.

Definition empty_world : world := World ∅ ∅ [] [].

(** What a successful call does to the file system: [Mkdir] creates the
    directory and its missing parents, [Open] creates or truncates the
    file, [Write] appends to what the file holds. *)
Definition effect_files (op : io_op) (fs : gmap path string)
  : gmap path string :=
  match op with
  | Mkdir _ => fs
  | Open p => <[p := EmptyString]> fs
  | Write p text => <[p := default EmptyString (fs !! p) +:+ text]> fs
  end.

Definition effect_dirs (op : io_op) (ds : gset path) : gset path :=
  match op with
  | Mkdir p => ds ∪ list_to_set (prefixes p)
  | Open _ | Write _ _ => ds
  end.

(** *** The monad of the script body: state and exceptions *)

Definition M (A : Type) : Type := world -> world * result A.

Definition ret {A} (a : A) : M A := fun w => (w, Returns a).

Definition bind {A B} (m : M A) (k : A -> M B) : M B :=
  fun w =>
    match m w with
    | (w', Returns a) => k a w'
    | (w', Raises e) => (w', Raises e)
    end.

(** A pure computation that may raise. *)
Definition lift {A} (r : result A) : M A := fun w => (w, r).

Notation "x <- m ; k" := (bind m (fun x => k))
  (at level 100, m at next level, right associativity,
   format "'[v' x  <-  m ; '/' k ']'").
Notation "m ;;; k" := (bind m (fun _ => k))
  (at level 100, right associativity).

(** [for x in l: body(x)]. *)
Fixpoint for_each {A} (l : list A) (body : A -> M unit) : M unit :=
  match l with
  | [] => ret tt
  | x :: l' => body x ;;; for_each l' body
  end.

(** [print(line)]. *)
Definition print (line : string) : M unit :=
  fun w => (World (dirs w) (files w) (stdout w ++ [line]) (trace w),
            Returns tt).

Section Run.

(** The environment decides which system calls succeed: [env i] tells
    whether the [i]-th call attempted does. *)
Variable env : nat -> bool.

(** [__file__], the location of the script. *)
Variable script_file : path.

(** A system call: recorded in the trace; it takes effect when the
    environment lets it succeed and raises [OSError] otherwise. *)
Definition syscall (op : io_op) : M unit :=
  fun w =>
    if env (length (trace w)) then
      (World (effect_dirs op (dirs w)) (effect_files op (files w))
             (stdout w) (trace w ++ [(op, true)]),
       Returns tt)
    else
      (World (dirs w) (files w) (stdout w) (trace w ++ [(op, false)]),
       Raises OSError).

(** [with open(p, 'w') as f: f.write(text)]. *)
Definition write_text (p : path) (text : string) : M unit :=
  syscall (Open p) ;;; syscall (Write p text).

(** *** The script's constants *)

Definition dq : string := String "034" EmptyString.
Definition nl : string := String "010" EmptyString.

Definition svg_template : string :=
  "<?xml version=" +:+ dq +:+ "1.0" +:+ dq +:+ " encoding=" +:+ dq
    +:+ "UTF-8" +:+ dq +:+ "?>" +:+ nl
  +:+ "<svg width=" +:+ dq +:+ "{size}" +:+ dq
    +:+ " height=" +:+ dq +:+ "{size}" +:+ dq
    +:+ " viewBox=" +:+ dq +:+ "0 0 {size} {size}" +:+ dq
    +:+ " xmlns=" +:+ dq +:+ "http://www.w3.org/2000/svg" +:+ dq
    +:+ ">" +:+ nl
  +:+ "  <polygon points=" +:+ dq +:+ "{x1},{y1} {x2},{y2} {x3},{y3}"
    +:+ dq +:+ " fill=" +:+ dq +:+ "black" +:+ dq +:+ "/>" +:+ nl
  +:+ "</svg>".

Definition sizes : list Z := [16; 32; 64; 128; 256; 512; 1024].

Definition root : path := parent (parent script_file).

Definition iconset_dir : path :=
  join (join root "Resources") "AppIcon.iconset".

(** *** The loop body *)

(** The five coordinates computed for a size. *)
Record triangle : Type := Triangle {
  center_x : spec_float;
  top_y : spec_float;
  bottom_y : spec_float;
  left_x : spec_float;
  right_x : spec_float
}.

Definition triangle_points (size : Z) : result triangle :=
  rbind (PyFloat.int_truediv size 2) (fun cx =>
  rbind (PyFloat.int_mul size (PyFloat.of_decimal 25 (-2))) (fun ty =>
  rbind (PyFloat.int_mul size (PyFloat.of_decimal 75 (-2))) (fun by_ =>
  rbind (PyFloat.int_mul size (PyFloat.of_decimal 2 (-1))) (fun lx =>
  rbind (PyFloat.int_mul size (PyFloat.of_decimal 8 (-1))) (fun rx =>
  Returns (Triangle cx ty by_ lx rx)))))).

Definition svg_content (size : Z) : result string :=
  rbind (triangle_points size) (fun t =>
  format svg_template
    [("size"%string, VInt size);
     ("x1"%string, VFloat (center_x t)); ("y1"%string, VFloat (bottom_y t));
     ("x2"%string, VFloat (left_x t)); ("y2"%string, VFloat (top_y t));
     ("x3"%string, VFloat (right_x t)); ("y3"%string, VFloat (top_y t))]).

(** [f"icon_{n}x{n}.svg"] and [f"icon_{n}x{n}@2x.svg"]. *)
Definition nominal_name (n : Z) : string :=
  "icon_" +:+ of_int n +:+ "x" +:+ of_int n +:+ ".svg".

Definition at2x_name (n : Z) : string :=
  "icon_" +:+ of_int n +:+ "x" +:+ of_int n +:+ "@2x.svg".

Definition body (size : Z) : M unit :=
  content <- lift (svg_content size);
  (if size <=? 512
   then write_text (join iconset_dir (nominal_name size)) content
   else ret tt) ;;;
  (if (32 <=? size) && (size <=? 512)
   then write_text (join iconset_dir (at2x_name (size / 2))) content
   else ret tt).

Definition created_message : string :=
  "SVG icons created in " +:+ path_text iconset_dir.

Definition convert_message : string :=
  "Note: You'll need to convert these to PNG manually "
    +:+ "using a tool like Inkscape or ImageMagick".

(** The whole script. *)
Definition main : M unit :=
  syscall (Mkdir iconset_dir) ;;;
  for_each sizes body ;;;
  print created_message ;;;
  print convert_message.

End Run.

End Script.

(** ** Observations

    The notions the properties are stated with: what a run attempted and
    wrote, what an SVG text says, and the exact value of a float. *)

Module Observe.
Import PyStr Script.

(** The environment in which every system call succeeds. *)
Definition all_succeed : nat -> bool := fun _ => true.

(** A place where the script may lie, for examples. *)
Definition sample_script_file : path :=
  ["repo"; "Scripts"; "generate-icon.py"]%string.

(** One complete run from the empty world. *)
Definition complete_run (script_file : path) : world * result unit :=
  main all_succeed script_file empty_world.

(** The calls, in order, when nothing fails: the names and texts a size
    contributes, the two calls each file takes, and the whole sequence. *)
Definition content_of (size : Z) : string :=
  match svg_content size with
  | Returns c => c
  | Raises _ => EmptyString
  end.

Definition outputs_of (size : Z) (content : string)
  : list (string * string) :=
  (if size <=? 512 then [(nominal_name size, content)] else [])
  ++ (if (32 <=? size) && (size <=? 512)
      then [(at2x_name (size / 2), content)] else []).

Definition outputs : list (string * string) :=
  flat_map (fun size => outputs_of size (content_of size)) sizes.

Definition calls_of (dir : path) (out : string * string) : list io_op :=
  [Open (join dir (fst out)); Write (join dir (fst out)) (snd out)].

Definition plan (script_file : path) : list io_op :=
  Mkdir (iconset_dir script_file)
  :: flat_map (calls_of (iconset_dir script_file)) outputs.

(** Running a list of calls one after the other. *)
Definition exec (env : nat -> bool) (ops : list io_op) : M unit :=
  for_each ops (syscall env).

(** What the trace gains when [ops] are attempted from call number [n]
    on: every call up to the first one the environment fails, that one
    included and marked failed, and nothing after it. *)
Fixpoint attempt (env : nat -> bool) (n : nat) (ops : list io_op)
  : list (io_op * bool) :=
  match ops with
  | [] => []
  | op :: ops' =>
      if env n then (op, true) :: attempt env (S n) ops'
      else [(op, false)]
  end.

(** The world after the recorded calls, and what the run of them
    returns: [OSError] as soon as one has failed. *)
Definition record (w : world) (ev : io_op * bool) : world :=
  if snd ev then
    World (effect_dirs (fst ev) (dirs w)) (effect_files (fst ev) (files w))
          (stdout w) (trace w ++ [ev])
  else World (dirs w) (files w) (stdout w) (trace w ++ [ev]).

Definition after (w : world) (evs : list (io_op * bool)) : world :=
  fold_left record evs w.

Definition outcome (evs : list (io_op * bool)) : result unit :=
  if forallb snd evs then Returns tt else Raises OSError.

Definition succeeded (ops : list io_op) : list (io_op * bool) :=
  map (fun op => (op, true)) ops.

(** The file texts written by the successful [Write] calls of a trace. *)
Definition written (tr : list (io_op * bool)) : list (path * string) :=
  flat_map (fun ev =>
              match ev with
              | (Write p text, true) => [(p, text)]
              | _ => []
              end) tr.

(** The last text bound to [name] in a list of outputs. *)
Definition final (outs : list (string * string)) (name : string)
  : option string :=
  fold_left (fun acc out =>
               if String.eqb (fst out) name then Some (snd out) else acc)
            outs None.

(** *** Reading an SVG text *)

(** [s] without its prefix [pre]. *)
Fixpoint strip_prefix (pre s : string) : option string :=
  match pre, s with
  | EmptyString, _ => Some s
  | String a pre', String b s' =>
      if Ascii.eqb a b then strip_prefix pre' s' else None
  | String _ _, EmptyString => None
  end.

(** What follows the first occurrence of [pat] in [s]. *)
Fixpoint text_after (pat s : string) : option string :=
  match strip_prefix pat s with
  | Some rest => Some rest
  | None =>
      match s with
      | EmptyString => None
      | String _ s' => text_after pat s'
      end
  end.

(** The text up to the next double quote. *)
Fixpoint quoted (s : string) : option string :=
  match s with
  | EmptyString => None
  | String c s' =>
      if Ascii.eqb c "034" then Some EmptyString
      else option_map (String c) (quoted s')
  end.

(** The value of the first attribute [name] of a document. *)
Definition attribute (name doc : string) : option string :=
  match text_after (" " +:+ name +:+ "=" +:+ dq) doc with
  | Some rest => quoted rest
  | None => None
  end.


(** The document of the SVG schema, with the size and the six polygon
    coordinates as already printed texts. *)
Definition svg_schema (S x1 y1 x2 y2 x3 y3 : string) : string :=
  "<?xml version=" +:+ dq +:+ "1.0" +:+ dq
    +:+ " encoding=" +:+ dq +:+ "UTF-8" +:+ dq +:+ "?>" +:+ nl
  +:+ "<svg width=" +:+ dq +:+ S +:+ dq +:+ " height=" +:+ dq +:+ S +:+ dq
    +:+ " viewBox=" +:+ dq +:+ "0 0 " +:+ S +:+ " " +:+ S +:+ dq
    +:+ " xmlns=" +:+ dq +:+ "http://www.w3.org/2000/svg" +:+ dq +:+ ">"
    +:+ nl
  +:+ "  <polygon points=" +:+ dq
    +:+ x1 +:+ "," +:+ y1 +:+ " " +:+ x2 +:+ "," +:+ y2 +:+ " "
    +:+ x3 +:+ "," +:+ y3
    +:+ dq +:+ " fill=" +:+ dq +:+ "black" +:+ dq +:+ "/>" +:+ nl
  +:+ "</svg>".

(** The schema filled with the triangle of a size: bottom vertex first,
    then top left, then top right. *)
Definition svg_of_triangle (size : Z) (t : triangle) : string :=
  svg_schema (of_int size)
             (of_float (center_x t)) (of_float (bottom_y t))
             (of_float (left_x t)) (of_float (top_y t))
             (of_float (right_x t)) (of_float (top_y t)).

(** *** Values of floats *)

(** [x] is exactly the fraction [n/d], for [0 < d]. *)
Definition is_ratio (x : spec_float) (n d : Z) : bool :=
  match x with
  | S754_zero _ => n =? 0
  | S754_finite s m e =>
      let v := if s then Z.neg m else Z.pos m in
      if 0 <=? e then v * 2 ^ e * d =? n else v * d =? n * 2 ^ (- e)
  | S754_infinity _ | S754_nan => false
  end.

(** [x] is a whole number, as [float.is_integer]. *)
Definition is_integer (x : spec_float) : bool :=
  match x with
  | S754_zero _ => true
  | S754_finite _ m e =>
      if 0 <=? e then true else Z.pos m mod 2 ^ (- e) =? 0
  | S754_infinity _ | S754_nan => false
  end.

(** [m' * 2^e'] is [q * 2^e1] or the next float above it, for a 53-digit
    [q]. *)
Definition rounded (q e1 : Z) (m' : positive) (e' : Z) : Prop :=
  (e' = e1 /\ (Z.pos m' = q \/ Z.pos m' = q + 1) /\ Z.pos m' < 2 ^ 53)
  \/ (e' = e1 + 1 /\ Z.pos m' = 2 ^ 52 /\ q = 2 ^ 53 - 1).

(** The leading 53 binary digits of [p], padded with zeros when [p] has
    fewer. *)
Definition leading53 (p : positive) : Z :=
  let d := Z.pos (digits2_pos p) in
  if d <=? 53 then Z.pos p * 2 ^ (53 - d) else Z.pos p / 2 ^ (d - 53).

(** [x < y] on floats. *)
Definition lt (x y : spec_float) : bool :=
  SFltb x y.

(** Whether a character occurs in a text. *)
Fixpoint has_char (c : ascii) (s : string) : bool :=
  match s with
  | EmptyString => false
  | String a s' => Ascii.eqb a c || has_char c s'
  end.

(** Whether a text is made of decimal digits and minus signs only. *)
Fixpoint numeric (s : string) : bool :=
  match s with
  | EmptyString => true
  | String c s' =>
      (Ascii.eqb c "-" || ((48 <=? nat_of_ascii c)%nat
                           && (nat_of_ascii c <=? 57)%nat))
      && numeric s'
  end.

(** The files of [fs] after the outputs are stored under [dir], later
    ones over earlier ones. *)
Definition store (dir : path) (outs : list (string * string))
                 (fs : gmap path string) : gmap path string :=
  fold_left (fun fs out => <[join dir (fst out) := snd out]> fs) outs fs.

(** *** The spec's scenarios, as the spec words them *)

(** Size 32: [icon_32x32.svg] with integer-looking points, and
    [icon_16x16@2x.svg] with the same points and width and height 32. *)
Definition stated_size_32 (script_file : path) : Prop :=
  let fs := files (fst (complete_run script_file)) in
  let dir := iconset_dir script_file in
  (exists c, fs !! join dir "icon_32x32.svg" = Some c
             /\ attribute "points" c = Some "16,24 6.4,8 25.6,8"%string)
  /\ (exists c, fs !! join dir "icon_16x16@2x.svg" = Some c
                /\ attribute "points" c = Some "16,24 6.4,8 25.6,8"%string
                /\ attribute "width" c = Some "32"%string
                /\ attribute "height" c = Some "32"%string).

(** Size 1024: no [icon_1024x1024.svg], and [icon_512x512@2x.svg] with
    width and height 1024 and integer-looking points. *)
Definition stated_size_1024 (script_file : path) : Prop :=
  let fs := files (fst (complete_run script_file)) in
  let dir := iconset_dir script_file in
  fs !! join dir "icon_1024x1024.svg" = None
  /\ (exists c,
        fs !! join dir "icon_512x512@2x.svg" = Some c
        /\ attribute "width" c = Some "1024"%string
        /\ attribute "height" c = Some "1024"%string
        /\ attribute "points" c
           = Some "512,768 204.8,256 819.2,256"%string).

(** The five coordinates of a triangle. *)
Definition coordinates (t : triangle) : list spec_float :=
  [center_x t; top_y t; bottom_y t; left_x t; right_x t].

(** The coordinates of every fixed size are the stated fractions of the
    size (the nearest float for 0.2 and 0.8, which binary64 cannot hold
    exactly) and are integers like the size: each one is a whole number
    and is printed as that integer is. *)
Definition stated_integer_coordinates : Prop :=
  Forall (fun S =>
            exists t,
              triangle_points S = Returns t
              /\ is_ratio (top_y t) S 4 = true
              /\ is_ratio (bottom_y t) (3 * S) 4 = true
              /\ is_ratio (center_x t) S 2 = true
              /\ PyFloat.same (left_x t) (PyFloat.of_decimal (2 * S) (-1))
                 = true
              /\ PyFloat.same (right_x t) (PyFloat.of_decimal (8 * S) (-1))
                 = true
              /\ Forall (fun x =>
                           exists z : Z,
                             is_ratio x z 1 = true
                             /\ of_float x = of_int z)
                        (coordinates t))
         sizes.

(** The path a call writes at, if any. *)
Definition target (op : io_op) : option path :=
  match op with
  | Mkdir _ => None
  | Open p | Write p _ => Some p
  end.

End Observe.

(** ** Running the script *)

Module Run.
Import PyStr Script Observe.

(** *** The monad *)

Lemma bind_assoc {A B C} (m : M A) (k : A -> M B) (h : B -> M C) w :
  bind (bind m k) h w = bind m (fun a => bind (k a) h) w.
Proof. unfold bind. destruct (m w) as [w' [a|e]]; reflexivity. Qed.

Lemma bind_ext {A B} (m : M A) (k k' : A -> M B) w :
  (forall a w', k a w' = k' a w') -> bind m k w = bind m k' w.
Proof.
  intros Hk. unfold bind.
  destruct (m w) as [w' [a|e]]; [apply Hk | reflexivity].
Qed.

Lemma bind_ret_tt (m : M unit) w : bind m (fun _ => ret tt) w = m w.
Proof. unfold bind, ret. destruct (m w) as [w' [[]|e]]; reflexivity. Qed.

Section Env.
Variable env : nat -> bool.
Variable script_file : path.

Lemma exec_app ops1 ops2 w :
  exec env (ops1 ++ ops2) w
  = bind (exec env ops1) (fun _ => exec env ops2) w.
Proof.
  revert w. induction ops1 as [|op ops1 IH]; intros w.
  - reflexivity.
  - change (bind (syscall env op)
              (fun _ => exec env (ops1 ++ ops2)) w
            = bind (bind (syscall env op) (fun _ => exec env ops1))
                (fun _ => exec env ops2) w).
    rewrite bind_assoc. apply bind_ext. intros _ w'. apply IH.
Qed.

(** One file: [write_text] is its two calls. *)
Lemma write_text_exec dir out w :
  write_text env (join dir (fst out)) (snd out) w
  = exec env (calls_of dir out) w.
Proof.
  unfold write_text, calls_of, exec. simpl.
  apply bind_ext. intros _ w'. symmetry. apply bind_ret_tt.
Qed.

(** One size: the body is the calls of the outputs of that size. *)
Lemma body_exec size content w :
  svg_content size = Returns content ->
  body env script_file size w
  = exec env (flat_map (calls_of (iconset_dir script_file))
                (outputs_of size content)) w.
Proof.
  intros Hc. unfold body, outputs_of. rewrite Hc.
  rewrite flat_map_app, exec_app.
  change (bind (lift (Returns content)) ?k w) with (k content w).
  cbv beta.
  assert (Hone : forall (b : bool) name w',
             (if b then write_text env
                          (join (iconset_dir script_file) name) content
              else ret tt) w'
             = exec env (flat_map (calls_of (iconset_dir script_file))
                           (if b then [(name, content)] else [])) w').
  { intros [] name w'; [|reflexivity].
    apply (write_text_exec _ (name, content)). }
  unfold bind. rewrite Hone.
  destruct (exec env _ w) as [w' [[]|e]]; [apply Hone | reflexivity].
Qed.

(** The loop: the calls of all outputs, in order. *)
Lemma loop_exec (l : list Z) w :
  Forall (fun size => exists c, svg_content size = Returns c) l ->
  for_each l (body env script_file) w
  = exec env
      (flat_map (calls_of (iconset_dir script_file))
         (flat_map (fun size => outputs_of size (content_of size)) l)) w.
Proof.
  intros Hl. revert w. induction Hl as [|size l [c Hc] _ IH]; intros w.
  - reflexivity.
  - simpl. rewrite flat_map_app, exec_app.
    unfold bind at 1.
    rewrite (body_exec size c w Hc).
    unfold content_of at 1. rewrite Hc.
    unfold bind.
    destruct (exec env _ w) as [w' [[]|e]]; [apply IH | reflexivity].
Qed.

(** Whatever the environment does, a list of calls runs up to its
    first failure. *)
Lemma exec_attempt ops w :
  exec env ops w
  = (after w (attempt env (length (trace w)) ops),
     outcome (attempt env (length (trace w)) ops)).
Proof.
  revert w. induction ops as [|op ops IH]; intros w.
  - reflexivity.
  - change (exec env (op :: ops))
      with (bind (syscall env op) (fun _ => exec env ops)).
    unfold bind, syscall. simpl attempt.
    destruct (env (length (trace w))) eqn:E.
    + rewrite IH. simpl trace.
      rewrite length_app, Nat.add_1_r. reflexivity.
    + reflexivity.
Qed.

(** The script is its plan followed by the two messages. *)
Lemma main_exec w :
  main env script_file w
  = bind (exec env (plan script_file))
      (fun _ => bind (print (created_message script_file))
                  (fun _ => print convert_message)) w.
Proof.
  unfold main, plan.
  change (exec env (?op :: ?ops))
    with (bind (syscall env op) (fun _ => exec env ops)).
  rewrite bind_assoc. apply bind_ext. intros _ w'.
  unfold bind. unfold outputs. rewrite loop_exec; [reflexivity|].
  repeat constructor; eexists; vm_compute; reflexivity.
Qed.

Lemma main_run w :
  main env script_file w
  = let tr := attempt env (length (trace w)) (plan script_file) in
    let w1 := after w tr in
    if forallb snd tr then
      (World (dirs w1) (files w1)
             (stdout w1 ++ [created_message script_file; convert_message])
             (trace w1),
       Returns tt)
    else (w1, Raises OSError).
Proof.
  rewrite main_exec. unfold bind at 1. rewrite exec_attempt.
  cbv zeta. unfold outcome.
  destruct (forallb snd _); [|reflexivity].
  unfold bind, print. simpl. rewrite <- app_assoc. reflexivity.
Qed.

End Env.

(** *** Worlds after recorded calls *)

Lemma trace_after w evs : trace (after w evs) = trace w ++ evs.
Proof.
  unfold after. revert w. induction evs as [|ev evs IH]; intros w; simpl.
  - symmetry. apply app_nil_r.
  - rewrite IH. unfold record.
    destruct (snd ev); simpl; rewrite <- app_assoc; reflexivity.
Qed.

Lemma stdout_after w evs : stdout (after w evs) = stdout w.
Proof.
  unfold after. revert w. induction evs as [|ev evs IH]; intros w; simpl.
  - reflexivity.
  - rewrite IH. unfold record. destruct (snd ev); reflexivity.
Qed.

Lemma files_after_succeeded w ops :
  files (after w (succeeded ops))
  = fold_left (fun fs op => effect_files op fs) ops (files w).
Proof.
  unfold after. revert w. induction ops as [|op ops IH]; intros w; simpl.
  - reflexivity.
  - rewrite IH. reflexivity.
Qed.

Lemma dirs_after_succeeded w ops :
  dirs (after w (succeeded ops))
  = fold_left (fun ds op => effect_dirs op ds) ops (dirs w).
Proof.
  unfold after. revert w. induction ops as [|op ops IH]; intros w; simpl.
  - reflexivity.
  - rewrite IH. reflexivity.
Qed.

(** *** Shapes of an attempt *)

Lemma forallb_succeeded ops : forallb snd (succeeded ops) = true.
Proof. induction ops; simpl; auto. Qed.

Lemma attempt_all_succeed n ops :
  attempt all_succeed n ops = succeeded ops.
Proof.
  revert n. induction ops as [|op ops IH]; intros n; simpl.
  - reflexivity.
  - rewrite IH. reflexivity.
Qed.



End Run.

(** ** File names *)

Module Names.
Import PyStr Script Observe.

(** *** Texts of integers *)

Lemma of_int_nil_empty z :
  of_int z = NilEmpty.string_of_int (Z.to_int z).
Proof.
  unfold of_int, NilZero.string_of_int, NilZero.string_of_uint.
  destruct z as [|p|p]; simpl; [reflexivity| |];
    (destruct (Pos.to_uint p) eqn:E; [|reflexivity ..];
     exfalso; exact (DecimalPos.Unsigned.to_uint_nonnil p E)).
Qed.

Lemma of_int_inj a b : of_int a = of_int b -> a = b.
Proof.
  rewrite !of_int_nil_empty. intros H.
  apply (f_equal NilEmpty.int_of_string) in H.
  rewrite !NilEmpty.isi in H. injection H as H.
  rewrite <- (DecimalZ.of_to a), <- (DecimalZ.of_to b), H. reflexivity.
Qed.

Lemma numeric_uint d : numeric (NilEmpty.string_of_uint d) = true.
Proof. induction d; simpl; auto. Qed.

Lemma numeric_of_int z : numeric (of_int z) = true.
Proof.
  rewrite of_int_nil_empty. destruct (Z.to_int z); simpl;
    apply numeric_uint.
Qed.

(** A character that is neither a digit nor a minus sign does not occur
    in a numeric text. *)
Lemma numeric_has_char c s :
  numeric s = true ->
  Ascii.eqb c "-" = false ->
  ((48 <=? nat_of_ascii c)%nat && (nat_of_ascii c <=? 57)%nat) = false ->
  has_char c s = false.
Proof.
  intros Hs Hm Hd. induction s as [|a s IH]; simpl in *; [reflexivity|].
  apply andb_prop in Hs as [Ha Hs]. rewrite (IH Hs), orb_false_r.
  destruct (Ascii.eqb_spec a c) as [->|]; [|reflexivity].
  rewrite Hm, Hd in Ha. discriminate.
Qed.

(** *** Splitting a text at a separator *)

Lemma append_inj_l (a s t : string) : a +:+ s = a +:+ t -> s = t.
Proof.
  induction a as [|c a IH]; simpl; [auto|].
  intros H. injection H as H. auto.
Qed.

Lemma split_at c (u v r1 r2 : string) :
  has_char c u = false -> has_char c v = false ->
  u +:+ String c r1 = v +:+ String c r2 -> u = v /\ r1 = r2.
Proof.
  revert v. induction u as [|a u IH]; intros [|b v] Hu Hv H; simpl in *.
  - injection H as H. auto.
  - injection H as Hc H. subst b. rewrite Ascii.eqb_refl in Hv. discriminate.
  - injection H as Hc H. subst a. rewrite Ascii.eqb_refl in Hu. discriminate.
  - injection H as Hc H. subst b.
    apply orb_false_elim in Hu as [_ Hu].
    apply orb_false_elim in Hv as [_ Hv].
    destruct (IH v Hu Hv H) as [-> ->]. auto.
Qed.

Lemma of_int_no_x z : has_char "x" (of_int z) = false.
Proof.
  apply numeric_has_char; [apply numeric_of_int | reflexivity ..].
Qed.

(** *** The two name patterns *)

(** A name [icon_{a}x{a}{ext}] determines [a] and [ext]. *)
Lemma icon_name_inj a b (ext1 ext2 : string) :
  "icon_" +:+ of_int a +:+ "x" +:+ of_int a +:+ ext1
  = "icon_" +:+ of_int b +:+ "x" +:+ of_int b +:+ ext2 ->
  a = b /\ ext1 = ext2.
Proof.
  intros H. apply append_inj_l in H.
  apply split_at in H as [Hab H]; try apply of_int_no_x.
  apply of_int_inj in Hab. subst b.
  apply append_inj_l in H. auto.
Qed.

Lemma nominal_name_inj a b : nominal_name a = nominal_name b -> a = b.
Proof. intros H. apply icon_name_inj in H. tauto. Qed.

Lemma at2x_name_inj a b : at2x_name a = at2x_name b -> a = b.
Proof. intros H. apply icon_name_inj in H. tauto. Qed.

Lemma nominal_ne_at2x a b : nominal_name a <> at2x_name b.
Proof. intros H. apply icon_name_inj in H as [_ H]. discriminate. Qed.

Lemma join_inj dir a b : join dir a = join dir b -> a = b.
Proof. unfold join. intros H. apply app_inj_tail in H. tauto. Qed.

End Names.

(** ** Files after a run *)

Module Files.
Import PyStr Script Observe.

(** Opening and writing a file leaves exactly the text written. *)
Lemma files_calls (dir : path) (outs : list (string * string))
      (fs : gmap path string) :
  fold_left (fun fs op => effect_files op fs)
            (flat_map (calls_of dir) outs) fs
  = store dir outs fs.
Proof.
  unfold store. revert fs.
  induction outs as [|out outs IH]; intros fs; simpl; [reflexivity|].
  rewrite IH, lookup_insert_eq, insert_insert_eq. reflexivity.
Qed.

Lemma final_from (outs : list (string * string)) name acc :
  fold_left (fun acc out =>
               if String.eqb (fst out) name then Some (snd out) else acc)
            outs acc
  = match final outs name with
    | Some c => Some c
    | None => acc
    end.
Proof.
  unfold final. revert acc.
  induction outs as [|out outs IH]; intros acc; simpl; [reflexivity|].
  destruct (String.eqb (fst out) name).
  - rewrite (IH (Some (snd out))). destruct (fold_left _ outs None);
      reflexivity.
  - apply IH.
Qed.

(** A stored name holds its last text; other names are untouched. *)
Lemma lookup_store (dir : path) (outs : list (string * string))
      (fs : gmap path string) name :
  store dir outs fs !! join dir name
  = match final outs name with
    | Some c => Some c
    | None => fs !! join dir name
    end.
Proof.
  rewrite <- final_from. unfold store. revert fs.
  induction outs as [|out outs IH]; intros fs; simpl; [reflexivity|].
  rewrite IH. f_equal.
  destruct (String.eqb_spec (fst out) name) as [->|Hne].
  - apply lookup_insert_eq.
  - apply lookup_insert_ne. intros H. apply Hne.
    exact (Names.join_inj _ _ _ H).
Qed.

Lemma final_is_some (outs : list (string * string)) name :
  is_Some (final outs name) <-> In name (map fst outs).
Proof.
  unfold final.
  assert (H : forall acc : option string,
             is_Some (fold_left
                        (fun acc out =>
                           if String.eqb (fst out) name
                           then Some (snd out) else acc) outs acc)
             <-> is_Some acc \/ In name (map fst outs)).
  { induction outs as [|out outs IH]; intros acc; simpl.
    - tauto.
    - rewrite IH. destruct (String.eqb_spec (fst out) name) as [->|Hne].
      + split; [auto|]. intros _. left. eexists. reflexivity.
      + tauto. }
  rewrite H. split; [intros [[x Hx]|Hin]; [discriminate|exact Hin] | auto].
Qed.

(** Storing creates files under [dir] only, named by the outputs. *)
Lemma store_is_some (dir : path) (outs : list (string * string))
      (fs : gmap path string) (p : path) :
  is_Some (store dir outs fs !! p) ->
  is_Some (fs !! p)
  \/ exists name, In name (map fst outs) /\ p = join dir name.
Proof.
  unfold store. revert fs.
  induction outs as [|out outs IH]; intros fs; simpl; [auto|].
  intros H. destruct (IH _ H) as [Hs|(name & Hin & ->)].
  - destruct (decide (join dir (fst out) = p)) as [<-|Hne].
    + right. exists (fst out). auto.
    + rewrite lookup_insert_ne in Hs by exact Hne. auto.
  - right. exists name. auto.
Qed.

(** At any path, a store decides the content when it wrote there and
    leaves it alone when it did not. *)
Lemma lookup_store_any (dir : path) (outs : list (string * string))
      (fs : gmap path string) (p : path) :
  store dir outs fs !! p
  = match store dir outs ∅ !! p with
    | Some c => Some c
    | None => fs !! p
    end.
Proof.
  assert (H : forall fs' : gmap path string,
             store dir outs fs' !! p
             = fold_left (fun acc out =>
                            if decide (join dir (fst out) = p)
                            then Some (snd out) else acc) outs (fs' !! p)).
  { unfold store. induction outs as [|out outs IH]; intros fs'; simpl;
      [reflexivity|].
    rewrite IH. f_equal. rewrite lookup_insert.
    destruct (decide (join dir (fst out) = p)); reflexivity. }
  rewrite (H fs), (H ∅), lookup_empty.
  generalize (fs !! p) as acc. clear H.
  induction outs as [|out outs IH]; intros acc; simpl; [reflexivity|].
  destruct (decide (join dir (fst out) = p)).
  - rewrite (IH (Some (snd out))). destruct (fold_left _ outs None);
      reflexivity.
  - apply IH.
Qed.

(** Storing the same outputs again changes nothing. *)
Lemma store_idem (dir : path) (outs : list (string * string))
      (fs : gmap path string) :
  store dir outs (store dir outs fs) = store dir outs fs.
Proof.
  apply map_eq. intros p.
  rewrite (lookup_store_any dir outs (store dir outs fs)).
  rewrite (lookup_store_any dir outs fs).
  destruct (store dir outs ∅ !! p); reflexivity.
Qed.

Lemma dirs_calls (dir : path) (outs : list (string * string))
      (ds : gset path) :
  fold_left (fun ds op => effect_dirs op ds)
            (flat_map (calls_of dir) outs) ds = ds.
Proof.
  induction outs as [|out outs IH]; simpl; [reflexivity | exact IH].
Qed.

Lemma written_calls (dir : path) (outs : list (string * string)) :
  written (succeeded (flat_map (calls_of dir) outs))
  = map (fun out => (join dir (fst out), snd out)) outs.
Proof.
  induction outs as [|out outs IH]; simpl; [reflexivity|].
  f_equal. exact IH.
Qed.

Lemma written_app tr1 tr2 : written (tr1 ++ tr2) = written tr1 ++ written tr2.
Proof. unfold written. apply flat_map_app. Qed.

(** The run in which every call succeeds, from any world. *)
Lemma run_all_succeed (script_file : path) (w : world) :
  main all_succeed script_file w
  = (World (dirs w ∪ list_to_set (prefixes (iconset_dir script_file)))
           (store (iconset_dir script_file) outputs (files w))
           (stdout w ++ [created_message script_file; convert_message])
           (trace w ++ succeeded (plan script_file)),
     Returns tt).
Proof.
  rewrite Run.main_run. cbv zeta.
  rewrite Run.attempt_all_succeed, Run.forallb_succeeded.
  rewrite Run.trace_after, Run.stdout_after.
  rewrite Run.files_after_succeeded, Run.dirs_after_succeeded.
  unfold plan. cbn [fold_left effect_files effect_dirs].
  rewrite files_calls, dirs_calls. reflexivity.
Qed.

(** The names of the outputs, in the order they are written. *)
Lemma output_names :
  map fst outputs
  = [nominal_name 16;
     nominal_name 32; at2x_name 16;
     nominal_name 64; at2x_name 32;
     nominal_name 128; at2x_name 64;
     nominal_name 256; at2x_name 128;
     nominal_name 512; at2x_name 256].
Proof. vm_compute. reflexivity. Qed.

Lemma complete_run_eq (script_file : path) :
  complete_run script_file
  = (World (list_to_set (prefixes (iconset_dir script_file)))
           (store (iconset_dir script_file) outputs ∅)
           [created_message script_file; convert_message]
           (succeeded (plan script_file)),
     Returns tt).
Proof.
  unfold complete_run. rewrite run_all_succeed.
  cbn [dirs files stdout trace empty_world app].
  rewrite (left_id_L ∅ (∪)). reflexivity.
Qed.

(** After a complete run a name under the iconset directory holds the
    last text the outputs give it. *)
Lemma content_after_run (script_file : path) (name : string) :
  files (fst (complete_run script_file))
    !! join (iconset_dir script_file) name
  = final outputs name.
Proof.
  rewrite complete_run_eq. cbn [fst files].
  rewrite lookup_store, lookup_empty.
  destruct (final outputs name); reflexivity.
Qed.

Lemma exists_after_run (script_file : path) (name : string) :
  is_Some (files (fst (complete_run script_file))
             !! join (iconset_dir script_file) name)
  <-> In name (map fst outputs).
Proof. rewrite content_after_run. apply final_is_some. Qed.

Lemma written_after_run (script_file : path) :
  written (trace (fst (complete_run script_file)))
  = map (fun out => (join (iconset_dir script_file) (fst out), snd out))
        outputs.
Proof.
  rewrite complete_run_eq. cbn [fst trace]. unfold plan.
  change (succeeded (?op :: ?ops)) with ((op, true) :: succeeded ops).
  change (written ((Mkdir ?p, true) :: ?tr)) with (written tr).
  apply written_calls.
Qed.

End Files.

(** ** Rounding

    What the binary64 operations of the script return on arbitrary
    positive sizes: the conversion of the size, its half and its products
    with the four literals, each as a 53-digit mantissa next to the exact
    value. *)

Module Rounding.
Import PyFloat Observe.

Lemma digits2_bounds (p : positive) :
  2 ^ (Z.pos (digits2_pos p) - 1) <= Z.pos p < 2 ^ Z.pos (digits2_pos p).
Proof.
  induction p as [p IH|p IH|]; cbn [digits2_pos];
    [rewrite Pos2Z.inj_succ; change (Z.pos p~1) with (2 * Z.pos p + 1)
    |rewrite Pos2Z.inj_succ; change (Z.pos p~0) with (2 * Z.pos p)
    |cbn; lia];
    pose proof (Pos2Z.is_pos (digits2_pos p)) as Hpos;
    set (d := Z.pos (digits2_pos p)) in *; clearbody d;
    replace (Z.succ d - 1) with (Z.succ (d - 1)) by lia;
    rewrite !Z.pow_succ_r by lia;
    assert (Hd : 2 ^ d = 2 * 2 ^ (d - 1))
      by (rewrite <- Z.pow_succ_r by lia; f_equal; lia);
    lia.
Qed.

Lemma digits2_unique (p : positive) (k : Z) :
  2 ^ (k - 1) <= Z.pos p < 2 ^ k -> Z.pos (digits2_pos p) = k.
Proof.
  intros [Hlo Hhi]. pose proof (digits2_bounds p) as [Dlo Dhi].
  pose proof (Pos2Z.is_pos (digits2_pos p)) as Hpos.
  set (d := Z.pos (digits2_pos p)) in *. clearbody d.
  assert (0 < k).
  { destruct (Z.lt_trichotomy 0 k) as [|[<-|Hk]]; [assumption| |].
    - simpl in Hhi. lia.
    - rewrite Z.pow_neg_r in Hhi by lia. lia. }
  destruct (Z.lt_trichotomy d k) as [Hlt|[Heq|Hgt]]; [|assumption|].
  - assert (2 ^ d <= 2 ^ (k - 1)) by (apply Z.pow_le_mono_r; lia). lia.
  - assert (2 ^ k <= 2 ^ (d - 1)) by (apply Z.pow_le_mono_r; lia). lia.
Qed.

Lemma shr_1_m (r : shr_record) :
  0 <= shr_m r -> shr_m (shr_1 r) = shr_m r / 2.
Proof.
  destruct r as [m b s]. cbn [shr_m]. intros Hm.
  rewrite <- Z.div2_div.
  destruct m as [|[p|p|]|p]; try reflexivity; lia.
Qed.

Lemma iter_shr_1_m (p : positive) (r : shr_record) :
  0 <= shr_m r ->
  shr_m (SpecFloat.iter_pos shr_1 p r) = shr_m r / 2 ^ Z.pos p.
Proof.
  revert r. induction p as [p IH|p IH|]; intros r Hr; cbn [SpecFloat.iter_pos].
  - assert (H1 : 0 <= shr_m (shr_1 r))
      by (rewrite shr_1_m by assumption; apply Z.div_pos; lia).
    assert (H2 : 0 <= shr_m (SpecFloat.iter_pos shr_1 p (shr_1 r)))
      by (rewrite IH by assumption; apply Z.div_pos; lia).
    rewrite IH, IH, shr_1_m by assumption.
    rewrite !Z.div_div by lia. f_equal.
    change (Z.pos p~1) with (2 * Z.pos p + 1).
    replace (2 * Z.pos p + 1) with (Z.pos p + Z.pos p + 1) by lia.
    rewrite !Z.pow_add_r, Z.pow_1_r by lia. ring.
  - assert (H2 : 0 <= shr_m (SpecFloat.iter_pos shr_1 p r))
      by (rewrite IH by assumption; apply Z.div_pos; lia).
    rewrite IH, IH by assumption.
    rewrite !Z.div_div by lia. f_equal.
    change (Z.pos p~0) with (2 * Z.pos p).
    replace (2 * Z.pos p) with (Z.pos p + Z.pos p) by lia.
    rewrite Z.pow_add_r by lia. reflexivity.
  - rewrite shr_1_m by assumption. reflexivity.
Qed.

Lemma loc_of_record_of_loc m l :
  loc_of_shr_record (shr_record_of_loc m l) = l.
Proof. destruct l as [|[]]; reflexivity. Qed.

Lemma shr_m_record_of_loc m l : shr_m (shr_record_of_loc m l) = m.
Proof. destruct l as [|[]]; reflexivity. Qed.

(** Shifting a mantissa right by [n >= 0] places. *)
Lemma shr_spec (m e n : Z) (l : location) :
  0 <= m -> 0 <= n ->
  exists r,
    shr (shr_record_of_loc m l) e n = (r, e + n)
    /\ shr_m r = m / 2 ^ n
    /\ (n = 0 -> loc_of_shr_record r = l).
Proof.
  intros Hm Hn. destruct n as [|p|p]; [| |lia].
  - exists (shr_record_of_loc m l). cbn [shr].
    rewrite Z.add_0_r, shr_m_record_of_loc, Z.pow_0_r, Z.div_1_r.
    auto using loc_of_record_of_loc.
  - exists (SpecFloat.iter_pos shr_1 p (shr_record_of_loc m l)). cbn [shr].
    rewrite iter_shr_1_m by (rewrite shr_m_record_of_loc; assumption).
    rewrite shr_m_record_of_loc. repeat split. intros H. discriminate.
Qed.

Lemma round_nearest_even_cases m l :
  round_nearest_even m l = m \/ round_nearest_even m l = m + 1.
Proof.
  destruct l as [|[]]; cbn [round_nearest_even]; auto.
  destruct (Z.even m); auto.
Qed.

Lemma fexp_normal (e : Z) : -1074 <= e - 53 -> fexp prec emax e = e - 53.
Proof. intros H. unfold fexp, emin, prec, emax. lia. Qed.

Lemma shr_fexp_spec (m : positive) (e : Z) (l : location) :
  let d := Z.pos (digits2_pos m) in
  53 <= d -> -1074 <= d + e - 53 ->
  exists r,
    shr_fexp prec emax (Z.pos m) e l = (r, e + (d - 53))
    /\ shr_m r = Z.pos m / 2 ^ (d - 53)
    /\ (d = 53 -> loc_of_shr_record r = l).
Proof.
  intros d Hd He. unfold shr_fexp. cbn [Zdigits2]. fold d.
  rewrite fexp_normal by lia.
  replace (d + e - 53 - e) with (d - 53) by lia.
  destruct (shr_spec (Z.pos m) e (d - 53) l) as (r & Hr & Hm & Hl);
    [lia | lia |].
  exists r. repeat split; [assumption | assumption |].
  intros H. apply Hl. lia.
Qed.

Lemma truncated_bounds (m : positive) :
  let d := Z.pos (digits2_pos m) in
  53 <= d ->
  2 ^ 52 <= Z.pos m / 2 ^ (d - 53) < 2 ^ 53.
Proof.
  intros d Hd. pose proof (digits2_bounds m) as [Hlo Hhi]. fold d in Hlo, Hhi.
  assert (Hp : 0 < 2 ^ (d - 53)) by (apply Z.pow_pos_nonneg; lia).
  split.
  - apply Z.div_le_lower_bound; [assumption|].
    rewrite <- Z.pow_add_r by lia.
    replace (d - 53 + 52) with (d - 1) by lia. assumption.
  - apply Z.div_lt_upper_bound; [assumption|].
    rewrite <- Z.pow_add_r by lia.
    replace (d - 53 + 53) with d by lia. assumption.
Qed.

(** Rounding a mantissa of at least 53 digits in the normal range. *)
Lemma round_aux_spec (sx : bool) (mx : positive) (ex : Z) (lx : location) :
  let d := Z.pos (digits2_pos mx) in
  53 <= d -> -1074 <= d + ex - 53 ->
  exists m' e',
    binary_round_aux prec emax sx (Z.pos mx) ex lx
    = (if e' <=? 971 then S754_finite sx m' e' else S754_infinity sx)
    /\ rounded (Z.pos mx / 2 ^ (d - 53)) (ex + (d - 53)) m' e'
    /\ (d = 53 -> lx = loc_Exact -> m' = mx /\ e' = ex).
Proof.
  intros d Hd He.
  destruct (shr_fexp_spec mx ex lx Hd He) as (r1 & Hr1 & Hm1 & Hl1).
  fold d in Hr1, Hm1, Hl1.
  pose proof (truncated_bounds mx Hd) as Hq. fold d in Hq.
  set (q := Z.pos mx / 2 ^ (d - 53)) in *.
  unfold binary_round_aux. rewrite Hr1. cbv iota beta. rewrite Hm1.
  set (m2 := round_nearest_even q (loc_of_shr_record r1)).
  assert (Hm2 : m2 = q \/ m2 = q + 1) by apply round_nearest_even_cases.
  assert (Hexact : d = 53 -> lx = loc_Exact -> m2 = Z.pos mx).
  { intros H53 ->. unfold m2. rewrite (Hl1 H53). cbn [round_nearest_even].
    unfold q. rewrite H53. change (2 ^ (53 - 53)) with 1.
    apply Z.div_1_r. }
  clearbody m2.
  destruct m2 as [|pm2|pm2]; [lia| |lia].
  destruct (Z.ltb_spec (Z.pos pm2) (2 ^ 53)) as [Hlt|Hge].
  - (* no carry *)
    assert (Hd2 : Z.pos (digits2_pos pm2) = 53)
      by (apply digits2_unique; change (53 - 1) with 52; lia).
    destruct (shr_fexp_spec pm2 (ex + (d - 53)) loc_Exact)
      as (r2 & Hr2 & Hm2' & _); [lia | lia |].
    rewrite Hr2, Hm2', Hd2. change (2 ^ (53 - 53)) with 1.
    rewrite Z.div_1_r. cbv iota beta.
    exists pm2, (ex + (d - 53) + (53 - 53)).
    change (emax - prec) with 971. split; [reflexivity|]. split.
    + left. repeat split; first [assumption | lia].
    + intros H53 Hlx. specialize (Hexact H53 Hlx).
      injection Hexact as ->. split; [reflexivity | lia].
  - (* carry to 2^53 *)
    assert (Hpm : Z.pos pm2 = 2 ^ 53) by lia.
    assert (Hd2 : Z.pos (digits2_pos pm2) = 54)
      by (apply digits2_unique; rewrite Hpm; change (54 - 1) with 53;
          split; [lia | reflexivity]).
    destruct (shr_fexp_spec pm2 (ex + (d - 53)) loc_Exact)
      as (r2 & Hr2 & Hm2' & _); [lia | lia |].
    rewrite Hr2, Hm2', Hd2, Hpm.
    change (2 ^ 53 / 2 ^ (54 - 53)) with (Z.pos (Pos.pow 2 52)).
    cbv iota beta.
    exists (Pos.pow 2 52), (ex + (d - 53) + (54 - 53)).
    change (emax - prec) with 971. split; [reflexivity|]. split.
    + right. repeat split; first [reflexivity | lia].
    + intros H53 Hlx. specialize (Hexact H53 Hlx).
      pose proof (digits2_bounds mx) as [_ Hhi]. fold d in Hhi.
      rewrite H53 in Hhi. lia.
Qed.

Lemma leading53_bounds (p : positive) : 2 ^ 52 <= leading53 p < 2 ^ 53.
Proof.
  unfold leading53. pose proof (digits2_bounds p) as [Hlo Hhi].
  pose proof (Pos2Z.is_pos (digits2_pos p)) as Hpos.
  set (d := Z.pos (digits2_pos p)) in *.
  destruct (Z.leb_spec d 53) as [Hd|Hd].
  - assert (Hp : 0 < 2 ^ (53 - d)) by (apply Z.pow_pos_nonneg; lia).
    replace (2 ^ 52) with (2 ^ (d - 1) * 2 ^ (53 - d))
      by (rewrite <- Z.pow_add_r by lia; f_equal; lia).
    replace (2 ^ 53) with (2 ^ d * 2 ^ (53 - d))
      by (rewrite <- Z.pow_add_r by lia; f_equal; lia).
    split; [apply Z.mul_le_mono_nonneg_r | apply Z.mul_lt_mono_pos_r]; lia.
  - apply truncated_bounds. fold d. lia.
Qed.

Lemma iter_xO (p k : positive) :
  Z.pos (Pos.iter xO p k) = Z.pos p * 2 ^ Z.pos k.
Proof.
  induction k as [|k IH] using Pos.peano_ind.
  - cbn [Pos.iter]. change (2 ^ 1) with 2. lia.
  - rewrite Pos.iter_succ, Pos2Z.inj_succ, Z.pow_succ_r by lia.
    change (Z.pos (Pos.iter xO p k)~0) with (2 * Z.pos (Pos.iter xO p k)).
    rewrite IH. ring.
Qed.

(** [float(S)] for a positive [S]. *)
Lemma of_int_spec (p : positive) :
  exists m e,
    rounded (leading53 p) (Z.pos (digits2_pos p) - 53) m e
    /\ of_int (Z.pos p)
       = if e <=? 971 then Returns (S754_finite false m e)
         else Raises OverflowError.
Proof.
  pose proof (leading53_bounds p) as Hb.
  unfold of_int, leading53 in *. cbn [binary_normalize].
  unfold binary_round, shl_align.
  pose proof (digits2_bounds p) as [Hlo Hhi].
  pose proof (Pos2Z.is_pos (digits2_pos p)) as Hpos.
  set (d := Z.pos (digits2_pos p)) in *.
  rewrite fexp_normal by lia. rewrite Z.sub_0_r.
  destruct (Z.leb_spec d 53) as [Hd|Hd].
  - replace (d + 0 - 53) with (d - 53) by lia.
    destruct (d - 53) as [|k|k] eqn:Hk; [| lia |].
    + (* exactly 53 digits *)
      destruct (round_aux_spec false p 0 loc_Exact) as (m & e & Hr & _ & Hx);
        [fold d; lia | fold d; lia |].
      fold d in Hx. destruct Hx as [-> ->]; [lia | reflexivity |].
      exists p, 0. rewrite Hr. cbn [Z.leb Z.compare is_finite]. split.
      * left. replace (53 - d) with 0 in * by lia.
        rewrite Z.pow_0_r, Z.mul_1_r in *. repeat split; lia.
      * reflexivity.
    + (* fewer: the mantissa is padded *)
      assert (Hk' : Z.pos k = 53 - d) by lia.
      pose proof (iter_xO p k) as Hm. rewrite Hk' in Hm.
      set (mz := Pos.iter xO p k) in *.
      assert (Hdz : Z.pos (digits2_pos mz) = 53)
        by (apply digits2_unique; change (53 - 1) with 52; lia).
      destruct (round_aux_spec false mz (Z.neg k) loc_Exact)
        as (m & e & Hr & _ & Hx); [lia | lia |].
      destruct Hx as [-> ->]; [lia | reflexivity |].
      exists mz, (Z.neg k). rewrite Hr.
      destruct (Z.leb_spec (Z.neg k) 971) as [_|Hbad]; [|lia].
      cbn [is_finite]. split; [|reflexivity].
      left. repeat split; lia.
  - replace (d + 0 - 53) with (d - 53) by lia.
    destruct (d - 53) as [|k|k] eqn:Hk; [lia | | lia].
    destruct (round_aux_spec false p 0 loc_Exact) as (m & e & Hr & Hq & _);
      [fold d; lia | fold d; lia |].
    fold d in Hq. exists m, e. rewrite Hr. split.
    + rewrite Hk in Hq. exact Hq.
    + destruct (e <=? 971); reflexivity.
Qed.

Lemma pow2_succ (k : Z) : 0 <= k -> 2 ^ (k + 1) = 2 * 2 ^ k.
Proof. intros Hk. rewrite Z.add_1_r. apply Z.pow_succ_r. assumption. Qed.

Lemma div_eucl_div_mod (a b : Z) : Z.div_eucl a b = (a / b, a mod b).
Proof. unfold Z.div, Z.modulo. destruct (Z.div_eucl a b). reflexivity. Qed.

(** The quotient [S / 2] before rounding: [S] is scaled to at least 55
    digits and halved. *)
Lemma div_core_2 (p : positive) :
  let s := Z.max (55 - Z.pos (digits2_pos p)) 0 in
  SFdiv_core_binary prec emax (Z.pos p) 0 2 0
  = (Z.pos p * 2 ^ s / 2, - s, new_location 2 (Z.pos p * 2 ^ s mod 2)).
Proof.
  intros s. unfold SFdiv_core_binary. cbn [Zdigits2].
  change (Z.pos (digits2_pos 2)) with 2.
  pose proof (Pos2Z.is_pos (digits2_pos p)) as Hpos.
  set (d := Z.pos (digits2_pos p)) in *.
  rewrite fexp_normal by lia. change (0 - 0) with 0.
  destruct (Z.leb_spec 55 d) as [Hd|Hd].
  - rewrite Z.min_r by lia. cbn [Z.sub Z.opp Z.add].
    rewrite div_eucl_div_mod.
    replace s with 0 by lia. rewrite Z.pow_0_r, Z.mul_1_r. reflexivity.
  - rewrite Z.min_l by lia.
    replace (0 - (d + 0 - (2 + 0) - 53)) with s by lia.
    replace (d + 0 - (2 + 0) - 53) with (- s) by lia.
    destruct s as [|k|k] eqn:Hs; [lia | | lia].
    rewrite Z.shiftl_mul_pow2 by lia. rewrite div_eucl_div_mod. reflexivity.
Qed.

(** [S / 2] for a positive [S]. *)
Lemma truediv_2_spec (p : positive) :
  exists c ec,
    rounded (leading53 p) (Z.pos (digits2_pos p) - 54) c ec
    /\ int_truediv (Z.pos p) 2
       = if ec <=? 971 then Returns (S754_finite false c ec)
         else Raises OverflowError.
Proof.
  unfold int_truediv. cbn [Z.eqb exact]. unfold SFdiv.
  rewrite div_core_2. cbv zeta.
  pose proof (digits2_bounds p) as [Hlo Hhi].
  pose proof (Pos2Z.is_pos (digits2_pos p)) as Hpos.
  unfold leading53.
  set (d := Z.pos (digits2_pos p)) in *.
  set (s := Z.max (55 - d) 0).
  assert (Hs : 0 <= s) by lia.
  assert (Hps : 0 < 2 ^ s) by (apply Z.pow_pos_nonneg; lia).
  (* the quotient has [d + s - 1 >= 54] digits *)
  assert (Hq : 2 ^ (d + s - 2) <= Z.pos p * 2 ^ s / 2 < 2 ^ (d + s - 1)).
  { split.
    - apply Z.div_le_lower_bound; [lia|].
      replace (2 * 2 ^ (d + s - 2)) with (2 ^ (d - 1) * 2 ^ s).
      + apply Z.mul_le_mono_nonneg_r; lia.
      + rewrite <- Z.pow_add_r, <- pow2_succ by lia. f_equal. lia.
    - apply Z.div_lt_upper_bound; [lia|].
      replace (2 * 2 ^ (d + s - 1)) with (2 ^ d * 2 ^ s).
      + apply Z.mul_lt_mono_pos_r; lia.
      + rewrite <- Z.pow_add_r, <- pow2_succ by lia. f_equal. lia. }
  assert (Hqpos : 0 < Z.pos p * 2 ^ s / 2).
  { assert (0 < 2 ^ (d + s - 2)) by (apply Z.pow_pos_nonneg; lia). lia. }
  assert (Hlead : Z.pos p * 2 ^ s / 2 / 2 ^ (d + s - 1 - 53)
                  = if d <=? 53 then Z.pos p * 2 ^ (53 - d)
                    else Z.pos p / 2 ^ (d - 53)).
  { rewrite Z.div_div by (try apply Z.pow_pos_nonneg; lia).
    replace (2 * 2 ^ (d + s - 1 - 53)) with (2 ^ (d + s - 53))
      by (rewrite <- pow2_succ by lia; f_equal; lia).
    destruct (Z.leb_spec d 53) as [Hd|Hd].
    - replace s with (53 - d + (d + s - 53)) at 1 by lia.
      rewrite Z.pow_add_r, Z.mul_assoc by lia.
      apply Z.div_mul. apply Z.pow_nonzero; lia.
    - replace (d + s - 53) with (s + (d - 53)) by lia.
      rewrite Z.pow_add_r by lia.
      rewrite (Z.mul_comm (Z.pos p)).
      rewrite Z.div_mul_cancel_l by (apply Z.pow_nonzero; lia).
      reflexivity. }
  destruct (Z.pos p * 2 ^ s / 2) as [|pq|pq] eqn:Hpq; [lia | | lia].
  assert (Hdq : Z.pos (digits2_pos pq) = d + s - 1)
    by (apply digits2_unique; replace (d + s - 1 - 1) with (d + s - 2) by lia;
        exact Hq).
  destruct (round_aux_spec false pq (- s)
              (new_location 2 (Z.pos p * 2 ^ s mod 2)))
    as (c & ec & Hr & Hround & _); [lia | lia |].
  rewrite Hdq, Hlead in Hround.
  replace (- s + (d + s - 1 - 53)) with (d - 54) in Hround by lia.
  exists c, ec. split; [exact Hround|].
  cbn [xorb]. rewrite Hr. destruct (ec <=? 971); reflexivity.
Qed.

(** The product of two floats with 53-digit mantissas. *)
Lemma mul_spec (m mc : positive) (e ec : Z) :
  2 ^ 52 <= Z.pos m < 2 ^ 53 ->
  2 ^ 52 <= Z.pos mc < 2 ^ 53 ->
  -1074 <= e + ec + 52 ->
  exists D q m' e',
    (D = 105 \/ D = 106)
    /\ 2 ^ (D - 1) <= Z.pos m * Z.pos mc < 2 ^ D
    /\ q * 2 ^ (D - 53) <= Z.pos m * Z.pos mc < (q + 1) * 2 ^ (D - 53)
    /\ rounded q (e + ec + (D - 53)) m' e'
    /\ mul (S754_finite false m e) (S754_finite false mc ec)
       = if e' <=? 971 then S754_finite false m' e'
         else S754_infinity false.
Proof.
  intros Hm Hmc He.
  assert (Hprod : 2 ^ 104 <= Z.pos m * Z.pos mc < 2 ^ 106).
  { change (2 ^ 104) with (2 ^ 52 * 2 ^ 52).
    change (2 ^ 106) with (2 ^ 53 * 2 ^ 53).
    split; [apply Z.mul_le_mono_nonneg | apply Z.mul_lt_mono_nonneg]; lia. }
  set (D := Z.pos (digits2_pos (m * mc))).
  assert (HD : (D = 105 \/ D = 106)
               /\ 2 ^ (D - 1) <= Z.pos m * Z.pos mc < 2 ^ D).
  { pose proof (digits2_bounds (m * mc)) as Hb. fold D in Hb.
    rewrite Pos2Z.inj_mul in Hb. split; [|exact Hb].
    destruct (Z.ltb_spec (Z.pos m * Z.pos mc) (2 ^ 105)) as [Hlt|Hge].
    - left. apply digits2_unique. rewrite Pos2Z.inj_mul.
      change (105 - 1) with 104. lia.
    - right. apply digits2_unique. rewrite Pos2Z.inj_mul.
      change (106 - 1) with 105. lia. }
  destruct HD as [HD Hb].
  destruct (round_aux_spec false (m * mc) (e + ec) loc_Exact)
    as (m' & e' & Hr & Hround & _); fold D; [lia | lia |].
  fold D in Hround. rewrite Pos2Z.inj_mul in Hround.
  exists D, (Z.pos m * Z.pos mc / 2 ^ (D - 53)), m', e'.
  assert (Hp : 0 < 2 ^ (D - 53)) by (apply Z.pow_pos_nonneg; lia).
  pose proof (Z.mul_div_le (Z.pos m * Z.pos mc) _ Hp) as Hq1.
  pose proof (Z.mul_succ_div_gt (Z.pos m * Z.pos mc) _ Hp) as Hq2.
  unfold Z.succ in Hq2.
  rewrite (Z.mul_comm (2 ^ (D - 53))) in Hq1, Hq2.
  auto 10.
Qed.

Lemma lt_finite (m1 m2 : positive) (e1 e2 : Z) :
  e1 < e2 \/ (e1 = e2 /\ Z.pos m1 < Z.pos m2) ->
  Observe.lt (S754_finite false m1 e1) (S754_finite false m2 e2) = true.
Proof.
  unfold Observe.lt, SFltb, SFcompare. intros [H|[-> H]].
  - rewrite (proj2 (Z.compare_lt_iff e1 e2) H). reflexivity.
  - rewrite Z.compare_refl.
    change (Pos.compare_cont Eq m1 m2) with (Pos.compare m1 m2).
    rewrite (proj2 (Pos.compare_lt_iff m1 m2)) by lia. reflexivity.
Qed.

Lemma literal_025 :
  of_decimal 25 (-2) = S754_finite false 4503599627370496 (-54).
Proof. vm_compute. reflexivity. Qed.

Lemma literal_075 :
  of_decimal 75 (-2) = S754_finite false 6755399441055744 (-53).
Proof. vm_compute. reflexivity. Qed.

Lemma literal_02 :
  of_decimal 2 (-1) = S754_finite false 7205759403792794 (-55).
Proof. vm_compute. reflexivity. Qed.

Lemma literal_08 :
  of_decimal 8 (-1) = S754_finite false 7205759403792794 (-53).
Proof. vm_compute. reflexivity. Qed.

(** Brings the powers of two of a product's rounding to numerals. *)
Ltac product_cases HD :=
  destruct HD as [-> | ->];
  change (2 ^ (105 - 53)) with 4503599627370496 in *;
  change (2 ^ (106 - 53)) with 9007199254740992 in *;
  change (2 ^ (105 - 1)) with 20282409603651670423947251286016 in *;
  change (2 ^ (106 - 1)) with 40564819207303340847894502572032 in *;
  change (2 ^ 105) with 40564819207303340847894502572032 in *;
  change (2 ^ 106) with 81129638414606681695789005144064 in *.

(** All three orderings, from the roundings of the size and of its
    half. *)
Lemma products_ordered (p m c : positive) (e ec : Z) :
  rounded (leading53 p) (Z.pos (digits2_pos p) - 53) m e ->
  rounded (leading53 p) (Z.pos (digits2_pos p) - 54) c ec ->
  e <= 971 ->
  Observe.lt (mul (S754_finite false m e) (of_decimal 25 (-2)))
             (mul (S754_finite false m e) (of_decimal 75 (-2))) = true
  /\ Observe.lt (mul (S754_finite false m e) (of_decimal 2 (-1)))
                (S754_finite false c ec) = true
  /\ Observe.lt (S754_finite false c ec)
                (mul (S754_finite false m e) (of_decimal 8 (-1))) = true.
Proof.
  intros HF HC He.
  pose proof (leading53_bounds p) as Hl.
  pose proof (Pos2Z.is_pos (digits2_pos p)) as Hpos.
  set (d := Z.pos (digits2_pos p)) in *. clearbody d.
  set (t := leading53 p) in *. clearbody t.
  change (2 ^ 52) with 4503599627370496 in *.
  change (2 ^ 53) with 9007199254740992 in *.
  unfold rounded in HF, HC.
  change (2 ^ 52) with 4503599627370496 in *.
  change (2 ^ 53) with 9007199254740992 in *.
  assert (Hm : 4503599627370496 <= Z.pos m < 9007199254740992) by lia.
  rewrite literal_025, literal_075, literal_02, literal_08.
  destruct (mul_spec m 4503599627370496 e (-54))
    as (D1 & q1 & m1 & e1 & HD1 & Hb1 & Hq1 & Hr1 & ->); [lia | lia | lia |].
  destruct (mul_spec m 6755399441055744 e (-53))
    as (D2 & q2 & m2 & e2 & HD2 & Hb2 & Hq2 & Hr2 & ->); [lia | lia | lia |].
  destruct (mul_spec m 7205759403792794 e (-55))
    as (D3 & q3 & m3 & e3 & HD3 & Hb3 & Hq3 & Hr3 & ->); [lia | lia | lia |].
  destruct (mul_spec m 7205759403792794 e (-53))
    as (D4 & q4 & m4 & e4 & HD4 & Hb4 & Hq4 & Hr4 & ->); [lia | lia | lia |].
  unfold rounded in Hr1, Hr2, Hr3, Hr4.
  change (2 ^ 52) with 4503599627370496 in *.
  change (2 ^ 53) with 9007199254740992 in *.
  split; [|split].
  - clear HD3 Hb3 Hq3 Hr3 HD4 Hb4 Hq4 Hr4 HF HC.
    product_cases HD1; product_cases HD2;
      (destruct (Z.leb_spec e1 971); [|exfalso; lia]);
      (destruct (Z.leb_spec e2 971); [|exfalso; lia]);
      apply lt_finite; lia.
  - clear HD1 Hb1 Hq1 Hr1 HD2 Hb2 Hq2 Hr2 HD4 Hb4 Hq4 Hr4.
    product_cases HD3;
      (destruct (Z.leb_spec e3 971); [|exfalso; lia]);
      apply lt_finite; lia.
  - clear HD1 Hb1 Hq1 Hr1 HD2 Hb2 Hq2 Hr2 HD3 Hb3 Hq3 Hr3.
    product_cases HD4;
      (destruct (Z.leb_spec e4 971); [|exfalso; lia]);
      apply lt_finite; lia.
Qed.

(** For every positive size: the coordinates are computed and ordered, or
    the size is too large for a float and [OverflowError] is raised. *)
Lemma triangle_points_spec (p : positive) :
  (exists t,
      Script.triangle_points (Z.pos p) = Returns t
      /\ lt (Script.top_y t) (Script.bottom_y t) = true
      /\ lt (Script.left_x t) (Script.center_x t) = true
      /\ lt (Script.center_x t) (Script.right_x t) = true)
  \/ (Script.triangle_points (Z.pos p) = Raises OverflowError
      /\ 2 ^ 1023 <= Z.pos p).
Proof.
  destruct (of_int_spec p) as (m & e & HF & Hof).
  destruct (truediv_2_spec p) as (c & ec & HC & Hdiv).
  pose proof (digits2_bounds p) as [Hlo _].
  pose proof (Pos2Z.is_pos (digits2_pos p)) as Hpos.
  assert (Hbig : 1024 <= Z.pos (digits2_pos p) -> 2 ^ 1023 <= Z.pos p).
  { intros Hd. etransitivity; [|exact Hlo]. apply Z.pow_le_mono_r; lia. }
  unfold Script.triangle_points, int_mul. rewrite Hdiv, Hof.
  destruct (Z.leb_spec ec 971) as [Hec|Hec];
    destruct (Z.leb_spec e 971) as [He|He]; cbn [rbind rmap].
  - left. eexists. split; [reflexivity|].
    cbn [Script.top_y Script.bottom_y Script.left_x Script.center_x
         Script.right_x].
    exact (products_ordered p m c e ec HF HC He).
  - right. split; [reflexivity|]. apply Hbig.
    unfold rounded in HF. lia.
  - right. split; [reflexivity|]. apply Hbig.
    unfold rounded in HC. lia.
  - right. split; [reflexivity|]. apply Hbig.
    unfold rounded in HC. lia.
Qed.

End Rounding.

(** ** Properties of the generated icon set *)

Import PyStr Script Observe.

(** Closes a goal [name = name'] between file names that cannot be equal,
    or turns it into the equality of the sizes. *)
Ltac name_eq H :=
  first
    [ apply Names.nominal_name_inj in H
    | apply Names.at2x_name_inj in H
    | exfalso; exact (Names.nominal_ne_at2x _ _ H)
    | exfalso; symmetry in H; exact (Names.nominal_ne_at2x _ _ H) ].

(** A property of every element of a list written out, one element at a
    time. *)
Ltac each_element tac :=
  repeat (apply List.Forall_cons; [tac|]); apply List.Forall_nil.

(** Membership in a list written out. *)
Ltac in_list :=
  cbv [In sizes]; repeat (first [left; reflexivity | right]).

(** C2. After one complete run, the nominal file of [S] exists exactly
    when [S] is one of the fixed sizes and [S <= 512]; the [@2x] file of [N]
    exists exactly when some fixed size [S] with [32 <= S <= 512] has
    [S / 2 = N]; and every file that exists is one of these. *)
Theorem file_presence_law (script_file : path) :
  let fs := files (fst (complete_run script_file)) in
  let dir := iconset_dir script_file in
  (forall S : Z,
      is_Some (fs !! join dir (nominal_name S)) <-> In S sizes /\ S <= 512)
  /\ (forall N : Z,
        is_Some (fs !! join dir (at2x_name N))
        <-> exists S, In S sizes /\ S / 2 = N /\ 32 <= S <= 512)
  /\ (forall p : path,
        is_Some (fs !! p) ->
        (exists S, p = join dir (nominal_name S))
        \/ (exists N, p = join dir (at2x_name N))).
Proof.
  cbv zeta. split; [|split].
  - intros S. rewrite Files.exists_after_run, Files.output_names. split.
    + intros H. cbv [In] in H.
      repeat (destruct H as [H|H];
              [name_eq H; subst S; (split; [in_list | lia])|]).
      contradiction.
    + intros [Hin Hle]. cbv [In sizes] in Hin.
      repeat (destruct Hin as [Hin|Hin]; [subst S; try lia; in_list|]).
      contradiction.
  - intros N. rewrite Files.exists_after_run, Files.output_names. split.
    + intros H. cbv [In] in H.
      repeat (destruct H as [H|H];
              [name_eq H; exists (2 * N); subst N;
               (split; [in_list | split; [reflexivity | lia]])|]).
      contradiction.
    + intros (S & Hin & HN & Hlo & Hhi). cbv [In sizes] in Hin.
      repeat (destruct Hin as [Hin|Hin];
              [subst S; try lia; subst N;
               match goal with
               | |- context [at2x_name (?a / 2)] =>
                   let v := eval vm_compute in (a / 2) in
                   change (a / 2) with v
               end; in_list|]).
      contradiction.
  - intros p Hp. rewrite Files.complete_run_eq in Hp. cbn [fst files] in Hp.
    apply Files.store_is_some in Hp as [Hp|(name & Hin & ->)].
    + rewrite lookup_empty in Hp. destruct Hp as [x Hx]. discriminate.
    + rewrite Files.output_names in Hin. cbv [In] in Hin.
      repeat (destruct Hin as [Hin|Hin];
              [subst name; first [left; eexists; reflexivity
                                 |right; eexists; reflexivity]|]).
      contradiction.
Qed.

(** Every fixed size renders. *)
Lemma sizes_render :
  Forall (fun size => svg_content size = Returns (content_of size)) sizes.
Proof. unfold sizes. each_element ltac:(vm_compute; reflexivity). Qed.

(** C9. In one run every file is written at a path of its own: the paths
    of the writes are pairwise distinct. The two name patterns never
    meet, and each of them separates different numbers. *)
Theorem written_paths_distinct (script_file : path) :
  NoDup (map fst (written (trace (fst (complete_run script_file)))))
  /\ (forall a b : Z, nominal_name a = nominal_name b -> a = b)
  /\ (forall a b : Z, at2x_name a = at2x_name b -> a = b)
  /\ (forall a b : Z, nominal_name a <> at2x_name b).
Proof.
  split; [|split; [|split]].
  - rewrite Files.written_after_run, map_map. cbn [fst].
    rewrite <- (map_map fst (join (iconset_dir script_file))).
    rewrite Files.output_names.
    apply NoDup_fmap_2; [intros a b; apply Names.join_inj|].
    repeat (apply NoDup_cons_2;
            [ rewrite list_elem_of_In; intros H; cbv [In] in H;
              repeat (destruct H as [H|H]; [name_eq H; discriminate|]);
              contradiction |]).
    apply NoDup_nil_2.
  - exact Names.nominal_name_inj.
  - exact Names.at2x_name_inj.
  - exact Names.nominal_ne_at2x.
Qed.

(** C10. For a fixed size [S] with [32 <= S <= 512] the loop body opens
    and writes the nominal file and then the [@2x] file of [S / 2], both
    with the one text rendered for [S]; after a complete run both files
    hold that text. *)
Theorem at2x_same_content (script_file : path) (S : Z) :
  In S sizes -> 32 <= S <= 512 ->
  let dir := iconset_dir script_file in
  let fs := files (fst (complete_run script_file)) in
  exists content,
    svg_content S = Returns content
    /\ (forall w,
          body all_succeed script_file S w
          = (after w (succeeded
                        [Open (join dir (nominal_name S));
                         Write (join dir (nominal_name S)) content;
                         Open (join dir (at2x_name (S / 2)));
                         Write (join dir (at2x_name (S / 2))) content]),
             Returns tt))
    /\ fs !! join dir (nominal_name S) = Some content
    /\ fs !! join dir (at2x_name (S / 2)) = Some content.
Proof.
  intros Hin Hrange dir fs. exists (content_of S).
  pose proof (proj1 (List.Forall_forall _ _) sizes_render S Hin) as Hc.
  split; [exact Hc|]. split.
  - intros w. rewrite (Run.body_exec _ _ S _ w Hc).
    rewrite Run.exec_attempt, Run.attempt_all_succeed.
    unfold outputs_of, outcome.
    rewrite Run.forallb_succeeded.
    rewrite (proj2 (Z.leb_le S 512)) by lia.
    rewrite (proj2 (Z.leb_le 32 S)) by lia.
    reflexivity.
  - unfold fs, dir. rewrite !Files.content_after_run.
    cbv [In sizes] in Hin.
    repeat (destruct Hin as [Hin|Hin];
            [subst S; try lia; split; vm_compute; reflexivity|]).
    contradiction.
Qed.

Lemma at2x_same_content_witness :
  let dir := iconset_dir sample_script_file in
  let fs := files (fst (complete_run sample_script_file)) in
  exists content,
    svg_content 32 = Returns content
    /\ (forall w,
          body all_succeed sample_script_file 32 w
          = (after w (succeeded
                        [Open (join dir (nominal_name 32));
                         Write (join dir (nominal_name 32)) content;
                         Open (join dir (at2x_name (32 / 2)));
                         Write (join dir (at2x_name (32 / 2))) content]),
             Returns tt))
    /\ fs !! join dir (nominal_name 32) = Some content
    /\ fs !! join dir (at2x_name (32 / 2)) = Some content.
Proof.
  apply (at2x_same_content sample_script_file 32).
  - cbv [In sizes]. right. left. reflexivity.
  - lia.
Defined.

(** C6. A second run after a first one returns normally, leaves every
    file and directory as the first run left it, and attempts the very
    same calls, so each write of the second run writes the text the first
    run wrote at that path. *)
Theorem second_run_identical (script_file : path) (w : world) :
  let r1 := main all_succeed script_file w in
  let r2 := main all_succeed script_file (fst r1) in
  snd r1 = Returns tt
  /\ snd r2 = Returns tt
  /\ files (fst r2) = files (fst r1)
  /\ dirs (fst r2) = dirs (fst r1)
  /\ exists calls,
      trace (fst r1) = trace w ++ calls
      /\ trace (fst r2) = trace (fst r1) ++ calls.
Proof.
  cbv zeta. rewrite !Files.run_all_succeed.
  cbn [fst snd files dirs trace].
  repeat split.
  - apply Files.store_idem.
  - rewrite <- (assoc_L (∪)), (idemp_L (∪)). reflexivity.
  - eexists. split; reflexivity.
Qed.


(** The plan has 23 calls: the [mkdir] and two calls for each of the
    eleven files. *)
Lemma plan_length (script_file : path) :
  length (plan script_file) = 23%nat.
Proof.
  assert (H : forall dir (outs : list (string * string)),
             length (flat_map (calls_of dir) outs)
             = (2 * length outs)%nat).
  { intros dir outs. induction outs as [|out outs IH]; simpl; lia. }
  unfold plan. cbn [length].
  rewrite H, <- (length_map fst), Files.output_names. reflexivity.
Qed.

(** Every output carries the text rendered for one of the fixed sizes. *)
Lemma outputs_content :
  Forall (fun out => exists S, In S sizes /\ snd out = content_of S) outputs.
Proof.
  unfold outputs. apply List.Forall_flat_map, List.Forall_forall.
  intros S HS. unfold outputs_of.
  destruct (S <=? 512), (32 <=? S); cbn [app andb];
    repeat (constructor; [exists S; auto|]); constructor.
Qed.



(** The spec's scenario for size 32 does not hold: the points of
    [icon_32x32.svg] are printed as floats. *)
Lemma size_32_points_are_floats : ~ stated_size_32 sample_script_file.
Proof.
  intros [(c & Hc & Hp) _].
  rewrite Files.content_after_run in Hc. vm_compute in Hc.
  injection Hc as <-. vm_compute in Hp. discriminate.
Qed.

(** C3, amended. Size 32 is written to [icon_32x32.svg] and to
    [icon_16x16@2x.svg]; both hold the text rendered for 32, whose width
    and height are 32 and whose points are
    [16.0,24.0 6.4,8.0 25.6,8.0]. *)
Theorem size_32_files (script_file : path) :
  let fs := files (fst (complete_run script_file)) in
  let dir := iconset_dir script_file in
  exists c,
    svg_content 32 = Returns c
    /\ fs !! join dir "icon_32x32.svg" = Some c
    /\ fs !! join dir "icon_16x16@2x.svg" = Some c
    /\ attribute "points" c = Some "16.0,24.0 6.4,8.0 25.6,8.0"%string
    /\ attribute "width" c = Some "32"%string
    /\ attribute "height" c = Some "32"%string.
Proof.
  cbv zeta. exists (content_of 32). rewrite !Files.content_after_run.
  repeat split; vm_compute; reflexivity.
Qed.

(** The spec's scenario for size 1024 does not hold: no
    [icon_512x512@2x.svg] is written, and the points rendered for 1024 are
    printed as floats. *)
Lemma size_1024_scenario_fails :
  ~ stated_size_1024 sample_script_file
  /\ files (fst (complete_run sample_script_file))
       !! join (iconset_dir sample_script_file) "icon_512x512@2x.svg" = None
  /\ exists c,
      svg_content 1024 = Returns c
      /\ attribute "points" c
         = Some "512.0,768.0 204.8,256.0 819.2,256.0"%string.
Proof.
  split; [|split].
  - intros [_ (c & Hc & _)].
    rewrite Files.content_after_run in Hc. vm_compute in Hc. discriminate.
  - rewrite Files.content_after_run. vm_compute. reflexivity.
  - exists (content_of 1024). split; vm_compute; reflexivity.
Qed.

(** C1, amended. For size 1024 no [icon_1024x1024.svg] is written, and the
    SVG rendered for 1024 has width and height 1024 and the points
    [512.0,768.0 204.8,256.0 819.2,256.0]. *)
Theorem size_1024_rendering (script_file : path) :
  let fs := files (fst (complete_run script_file)) in
  let dir := iconset_dir script_file in
  fs !! join dir "icon_1024x1024.svg" = None
  /\ exists c,
      svg_content 1024 = Returns c
      /\ attribute "width" c = Some "1024"%string
      /\ attribute "height" c = Some "1024"%string
      /\ attribute "points" c
         = Some "512.0,768.0 204.8,256.0 819.2,256.0"%string.
Proof.
  cbv zeta. rewrite Files.content_after_run. split.
  - vm_compute. reflexivity.
  - exists (content_of 1024). repeat split; vm_compute; reflexivity.
Qed.

Lemma is_ratio_whole (m : positive) (e z : Z) :
  e < 0 ->
  is_ratio (S754_finite false m e) z 1 = true ->
  Z.pos m = z * 2 ^ (- e).
Proof.
  intros He H. unfold is_ratio in H.
  destruct (Z.leb_spec 0 e) as [Hle|_]; [lia|].
  apply Z.eqb_eq in H. lia.
Qed.

(** The coordinates are not integers like the size: for size 16 the
    centre is the whole number 8 and is printed [8.0], not [8], and the
    left edge 3.2 is not a whole number at all. *)
Lemma coordinates_not_integers :
  ~ stated_integer_coordinates
  /\ exists t,
      triangle_points 16 = Returns t
      /\ of_float (center_x t) = "8.0"%string
      /\ of_int 8 = "8"%string
      /\ of_float (left_x t) = "3.2"%string
      /\ is_integer (left_x t) = false.
Proof.
  split.
  - intros H. apply List.Forall_inv in H.
    destruct H as (t & Ht & _ & _ & _ & _ & _ & Hc).
    vm_compute in Ht. injection Ht as <-.
    apply List.Forall_inv in Hc. destruct Hc as (z & Hz & Hp).
    cbn [center_x] in Hz, Hp.
    apply is_ratio_whole in Hz; [|lia].
    change (2 ^ (- -49)) with 562949953421312 in Hz.
    assert (z = 8) as -> by lia.
    vm_compute in Hp. discriminate.
  - eexists. split; [vm_compute; reflexivity|].
    repeat split; vm_compute; reflexivity.
Qed.

(** C4, amended. For every fixed size [S] the coordinates are binary64
    floats, not integers: [top_y], [bottom_y] and [center_x] are exactly
    [S/4], [3S/4] and [S/2]; [left_x] and [right_x] are the floats nearest
    to [0.2 S] and [0.8 S], which are not whole numbers; and all five are
    printed with a decimal point. *)
Theorem coordinates_are_floats :
  Forall (fun S =>
            exists t,
              triangle_points S = Returns t
              /\ is_ratio (top_y t) S 4 = true
              /\ is_ratio (bottom_y t) (3 * S) 4 = true
              /\ is_ratio (center_x t) S 2 = true
              /\ PyFloat.same (left_x t) (PyFloat.of_decimal (2 * S) (-1))
                 = true
              /\ PyFloat.same (right_x t) (PyFloat.of_decimal (8 * S) (-1))
                 = true
              /\ is_integer (left_x t) = false
              /\ is_integer (right_x t) = false
              /\ forallb (fun x => has_char "." (of_float x))
                         (coordinates t) = true)
         sizes.
Proof.
  unfold sizes.
  each_element ltac:(eexists; split; [vm_compute; reflexivity|];
                     vm_compute; repeat split; reflexivity).
Qed.

(** C7. Every text written in a complete run has equal width and height.
    For every size [S > 0] the triangle has [top_y < bottom_y] and
    [left_x < center_x < right_x] whenever it is computed; it is computed
    unless [S] is too large for a float, from [2^1023] on at the earliest,
    where [OverflowError] is raised and no point exists. In particular
    the orderings hold for every fixed size. *)
Theorem icons_square_triangle_ordered (script_file : path) :
  Forall (fun written_file =>
            exists v,
              attribute "width" (snd written_file) = Some v
              /\ attribute "height" (snd written_file) = Some v)
         (written (trace (fst (complete_run script_file))))
  /\ (forall S : Z,
        0 < S ->
        (exists t,
            triangle_points S = Returns t
            /\ lt (top_y t) (bottom_y t) = true
            /\ lt (left_x t) (center_x t) = true
            /\ lt (center_x t) (right_x t) = true)
        \/ (triangle_points S = Raises OverflowError /\ 2 ^ 1023 <= S))
  /\ Forall (fun S =>
               0 < S
               /\ exists t,
                   triangle_points S = Returns t
                   /\ lt (top_y t) (bottom_y t) = true
                   /\ lt (left_x t) (center_x t) = true
                   /\ lt (center_x t) (right_x t) = true)
            sizes.
Proof.
  split; [|split].
  - rewrite Files.written_after_run. apply List.Forall_map.
    eapply List.Forall_impl; [|exact outputs_content].
    intros out (S & HS & Hout). cbn [snd]. rewrite Hout.
    exists (of_int S). cbv [In sizes] in HS.
    repeat (destruct HS as [HS|HS];
            [subst S; split; vm_compute; reflexivity|]).
    contradiction.
  - intros [|p|p] HS; [lia | | lia].
    apply Rounding.triangle_points_spec.
  - unfold sizes.
    each_element ltac:(split; [lia|];
                       eexists; split; [vm_compute; reflexivity|];
                       vm_compute; repeat split; reflexivity).
Qed.

(** ** Further properties of the script

    Properties of the parts of the script the statements above leave out:
    rendering at arbitrary sizes, the size ranges of the loop body, what a
    run does to files it finds, what a failed run leaves, and where the
    iconset directory lies. *)

Lemma format_template (size : Z) (t : triangle) :
  format svg_template
    [("size"%string, VInt size);
     ("x1"%string, VFloat (center_x t)); ("y1"%string, VFloat (bottom_y t));
     ("x2"%string, VFloat (left_x t)); ("y2"%string, VFloat (top_y t));
     ("x3"%string, VFloat (right_x t)); ("y3"%string, VFloat (top_y t))]
  = Returns (svg_of_triangle size t).
Proof.
  unfold svg_of_triangle.
  change (of_int size) with (str (VInt size)).
  change (of_float (center_x t)) with (str (VFloat (center_x t))).
  change (of_float (bottom_y t)) with (str (VFloat (bottom_y t))).
  change (of_float (left_x t)) with (str (VFloat (left_x t))).
  change (of_float (top_y t)) with (str (VFloat (top_y t))).
  change (of_float (right_x t)) with (str (VFloat (right_x t))).
  generalize (VInt size) (VFloat (center_x t)) (VFloat (bottom_y t))
             (VFloat (left_x t)) (VFloat (top_y t)) (VFloat (right_x t)).
  intros v0 v1 v2 v3 v4 v5.
  lazy -[str]. reflexivity.
Qed.

Module Touch.

Lemma attempt_in env n ops ev :
  In ev (attempt env n ops) -> In (fst ev) ops.
Proof.
  revert n. induction ops as [|op ops IH]; intros n; simpl; [tauto|].
  destruct (env n); simpl.
  - intros [<-|H]; [auto | right; exact (IH _ H)].
  - intros [<-|[]]. auto.
Qed.

Lemma plan_targets script_file op :
  In op (plan script_file) ->
  target op = None
  \/ exists name,
      In name (map fst outputs)
      /\ target op = Some (join (iconset_dir script_file) name).
Proof.
  unfold plan. intros [<-|H]; [left; reflexivity|].
  apply in_flat_map in H as (out & Hout & Hop). right. exists (fst out).
  split; [apply in_map; exact Hout|].
  unfold calls_of in Hop. simpl in Hop.
  destruct Hop as [<-|[<-|[]]]; reflexivity.
Qed.

Lemma files_after_untouched (evs : list (io_op * bool)) (w : world)
      (p : path) :
  (forall ev, In ev evs -> target (fst ev) <> Some p) ->
  files (after w evs) !! p = files w !! p.
Proof.
  unfold after. revert w.
  induction evs as [|ev evs IH]; intros w Hev; simpl; [reflexivity|].
  rewrite IH by (intros ev' H; apply Hev; right; exact H).
  assert (Ht : target (fst ev) <> Some p) by (apply Hev; left; reflexivity).
  unfold record. destruct ev as [op []]; cbn [fst snd files]; [|reflexivity].
  destruct op as [q|q|q text]; cbn [effect_files target fst] in *;
    [reflexivity | |];
    apply lookup_insert_ne; congruence.
Qed.

Lemma files_after_grow (evs : list (io_op * bool)) (w : world) (p : path) :
  is_Some (files w !! p) -> is_Some (files (after w evs) !! p).
Proof.
  unfold after. revert w.
  induction evs as [|ev evs IH]; intros w Hp; simpl; [exact Hp|].
  apply IH. unfold record. destruct ev as [op []]; cbn [fst snd files];
    [|exact Hp].
  destruct op as [q|q|q text]; cbn [effect_files]; [exact Hp | |];
    rewrite lookup_insert_is_Some; destruct (decide (q = p)); auto.
Qed.

Lemma dirs_after_grow (evs : list (io_op * bool)) (w : world) :
  dirs w ⊆ dirs (after w evs).
Proof.
  unfold after. revert w.
  induction evs as [|ev evs IH]; intros w; simpl; [reflexivity|].
  etransitivity; [|apply IH].
  unfold record. destruct ev as [op []]; cbn [fst snd dirs]; [|reflexivity].
  destruct op; cbn [effect_dirs]; [apply union_subseteq_l | reflexivity ..].
Qed.

(** The world a run leaves, whatever the environment. *)
Lemma main_world env script_file w :
  let tr := attempt env (length (trace w)) (plan script_file) in
  files (fst (main env script_file w)) = files (after w tr)
  /\ dirs (fst (main env script_file w)) = dirs (after w tr).
Proof.
  cbv zeta. rewrite Run.main_run. cbv zeta.
  destruct (forallb snd _); auto.
Qed.

End Touch.

(** X1. Whatever the environment refuses and whatever the file system held
    before, a run leaves every path as it was, except the paths of the
    eleven icon files in the iconset directory. *)
Theorem run_touches_only_icon_files
        (env : nat -> bool) (script_file : path) (w : world) (p : path) :
  files (fst (main env script_file w)) !! p = files w !! p
  \/ exists name,
      In name (map fst outputs)
      /\ p = join (iconset_dir script_file) name.
Proof.
  destruct (Touch.main_world env script_file w) as [-> _].
  destruct (decide (Exists
                      (fun name => p = join (iconset_dir script_file) name)
                      (map fst outputs))) as [Hex|Hno].
  - right. apply Exists_exists in Hex as (name & Hin & ->).
    exists name. split; [apply list_elem_of_In; exact Hin | reflexivity].
  - left. apply Touch.files_after_untouched. intros ev Hev Ht.
    apply Touch.attempt_in, Touch.plan_targets in Hev
      as [Hnone|(name & Hin & Hsome)]; [congruence|].
    apply Hno. apply Exists_exists. exists name.
    split; [apply list_elem_of_In; exact Hin | congruence].
Qed.

(** X2. A run never deletes: whatever fails, every file and every
    directory that exists before the run exists after it. *)
Theorem run_never_deletes
        (env : nat -> bool) (script_file : path) (w : world) :
  dom (files w) ⊆ dom (files (fst (main env script_file w)))
  /\ dirs w ⊆ dirs (fst (main env script_file w)).
Proof.
  destruct (Touch.main_world env script_file w) as [-> ->]. split.
  - intros p. rewrite !elem_of_dom. apply Touch.files_after_grow.
  - apply Touch.dirs_after_grow.
Qed.

(** X3. For every integer size, [svg_template.format] never raises: all
    seven fields of the template are supplied, so the rendered text is the
    SVG schema filled with the size and its triangle whenever the triangle
    is computed, and the only exception rendering can raise is the one
    the arithmetic raised. *)
Theorem rendering_follows_schema (size : Z) :
  (forall t,
      triangle_points size = Returns t ->
      svg_content size = Returns (svg_of_triangle size t))
  /\ (forall e,
        triangle_points size = Raises e -> svg_content size = Raises e).
Proof.
  unfold svg_content. split.
  - intros t ->. apply format_template.
  - intros e ->. reflexivity.
Qed.

(** X4. A positive size always renders unless it is too large for a
    float: below [2^1023] there is no exception at all, and beyond, the
    only exception is [OverflowError]. *)
Theorem rendering_of_positive_sizes (S : Z) :
  0 < S ->
  (exists t,
      triangle_points S = Returns t
      /\ svg_content S = Returns (svg_of_triangle S t))
  \/ (svg_content S = Raises OverflowError /\ 2 ^ 1023 <= S).
Proof.
  intros HS. destruct S as [|p|p]; [lia | | lia].
  destruct (Rounding.triangle_points_spec p) as [(t & Ht & _)|[Hr Hbig]].
  - left. exists t. split; [exact Ht|].
    unfold svg_content. rewrite Ht. apply format_template.
  - right. split; [|exact Hbig]. unfold svg_content. rewrite Hr. reflexivity.
Qed.

Lemma rendering_of_positive_sizes_witness :
  (exists t,
      triangle_points 16 = Returns t
      /\ svg_content 16 = Returns (svg_of_triangle 16 t))
  \/ (svg_content 16 = Raises OverflowError /\ 2 ^ 1023 <= 16).
Proof. apply (rendering_of_positive_sizes 16). lia. Defined.

(** X5. For a size above 512 the loop body makes no system call at all:
    it returns with the world unchanged, whatever the environment. *)
Theorem size_above_512_writes_nothing
        (env : nat -> bool) (script_file : path) (S : Z) (content : string)
        (w : world) :
  512 < S ->
  svg_content S = Returns content ->
  body env script_file S w = (w, Returns tt).
Proof.
  intros HS Hc. rewrite (Run.body_exec env script_file S content w Hc).
  unfold outputs_of.
  rewrite (proj2 (Z.leb_gt S 512)) by lia. rewrite andb_false_r.
  reflexivity.
Qed.

Lemma size_above_512_writes_nothing_witness :
  body all_succeed sample_script_file 1024 empty_world
  = (empty_world, Returns tt).
Proof.
  apply (size_above_512_writes_nothing
           all_succeed sample_script_file 1024 (content_of 1024)).
  - lia.
  - vm_compute. reflexivity.
Defined.



(** X7. Overwriting: from any file system, stale icon files included, a
    run in which every call succeeds leaves in the nominal file of each
    fixed size up to 512, and in the [@2x] file of each fixed size from 32
    to 512, exactly the text rendered for that size. *)
Theorem stale_files_replaced (script_file : path) (w : world) (S : Z) :
  In S sizes ->
  let fs := files (fst (main all_succeed script_file w)) in
  let dir := iconset_dir script_file in
  svg_content S = Returns (content_of S)
  /\ (S <= 512 -> fs !! join dir (nominal_name S) = Some (content_of S))
  /\ (32 <= S <= 512 ->
      fs !! join dir (at2x_name (S / 2)) = Some (content_of S)).
Proof.
  intros Hin. cbv zeta. rewrite Files.run_all_succeed. cbn [fst files].
  rewrite !Files.lookup_store.
  cbv [In sizes] in Hin.
  repeat (destruct Hin as [Hin|Hin];
          [subst S; split; [vm_compute; reflexivity|];
           split; intros HS; try lia; vm_compute; reflexivity|]).
  contradiction.
Qed.

Lemma stale_files_replaced_witness :
  let fs := files (fst (main all_succeed sample_script_file empty_world)) in
  let dir := iconset_dir sample_script_file in
  svg_content 32 = Returns (content_of 32)
  /\ (32 <= 512 -> fs !! join dir (nominal_name 32) = Some (content_of 32))
  /\ (32 <= 32 <= 512 ->
      fs !! join dir (at2x_name (32 / 2)) = Some (content_of 32)).
Proof.
  apply (stale_files_replaced sample_script_file empty_world 32).
  cbv [In sizes]. right. left. reflexivity.
Defined.

Module Partial.


End Partial.


(** X9. The iconset directory is [Resources/AppIcon.iconset] beside the
    directory that holds the script, whatever that directory and the script
    file are called; for a script at the file system root it is
    [/Resources/AppIcon.iconset], the root being its own parent. *)
Theorem iconset_beside_script_directory
        (base : path) (directory file : string) :
  iconset_dir (base ++ [directory; file])
  = base ++ ["Resources"; "AppIcon.iconset"]%string
  /\ iconset_dir [file] = ["Resources"; "AppIcon.iconset"]%string
  /\ iconset_dir [] = ["Resources"; "AppIcon.iconset"]%string.
Proof.
  unfold iconset_dir, root, parent, join. split; [|split; reflexivity].
  replace (base ++ [directory; file]) with ((base ++ [directory]) ++ [file])
    by (rewrite <- app_assoc; reflexivity).
  rewrite !removelast_last, <- app_assoc. reflexivity.
Qed.

Lemma prefixes_in (q k : path) : In q (prefixes (q ++ k)).
Proof.
  induction q as [|c q IH]; cbn [app prefixes].
  - destruct k; left; reflexivity.
  - right. apply in_map. exact IH.
Qed.

(** X10. When the [mkdir] succeeds, the iconset directory and every
    directory above it exist after the run, also when a later call
    fails. *)
Theorem iconset_directories_created
        (env : nat -> bool) (script_file : path) (w : world) (q : path) :
  env (length (trace w)) = true ->
  q `prefix_of` iconset_dir script_file ->
  q ∈ dirs (fst (main env script_file w)).
Proof.
  intros Henv [k Hk].
  destruct (Touch.main_world env script_file w) as [_ ->].
  unfold plan. cbn [attempt]. rewrite Henv.
  change (after w (?ev :: ?evs)) with (after (record w ev) evs).
  apply (Touch.dirs_after_grow _ (record w _)).
  cbn [record snd fst dirs effect_dirs].
  apply elem_of_union_r, elem_of_list_to_set, list_elem_of_In.
  rewrite Hk. apply prefixes_in.
Qed.

Lemma iconset_directories_created_witness :
  ["repo"; "Resources"]%string
    ∈ dirs (fst (main all_succeed sample_script_file empty_world)).
Proof.
  apply (iconset_directories_created all_succeed sample_script_file
           empty_world ["repo"; "Resources"]%string).
  - reflexivity.
  - exists ["AppIcon.iconset"%string]. reflexivity.
Defined.

Module Exact.
Import PyFloat Rounding.

Lemma shr_1_even (k : Z) :
  0 <= k ->
  shr_1 (Build_shr_record (2 * k) false false)
  = Build_shr_record k false false.
Proof. intros Hk. destruct k as [|q|q]; [reflexivity | reflexivity | lia]. Qed.

(** Shifting out zeros leaves no round or sticky bit. *)
Lemma iter_shr_1_zeros (p : positive) (k : Z) :
  0 <= k ->
  SpecFloat.iter_pos shr_1 p (Build_shr_record (2 ^ Z.pos p * k) false false)
  = Build_shr_record k false false.
Proof.
  revert k. induction p as [p IH|p IH|]; intros k Hk;
    cbn [SpecFloat.iter_pos].
  - change (Z.pos p~1) with (2 * Z.pos p + 1).
    replace (2 * Z.pos p + 1) with (1 + Z.pos p + Z.pos p) by lia.
    rewrite !Z.pow_add_r by lia. change (2 ^ 1) with 2.
    rewrite <- !Z.mul_assoc, shr_1_even by (repeat apply Z.mul_nonneg_nonneg;
                                            try apply Z.pow_nonneg; lia).
    rewrite IH by (apply Z.mul_nonneg_nonneg; try apply Z.pow_nonneg; lia).
    apply IH. assumption.
  - change (Z.pos p~0) with (2 * Z.pos p).
    replace (2 * Z.pos p) with (Z.pos p + Z.pos p) by lia.
    rewrite Z.pow_add_r, <- Z.mul_assoc by lia.
    rewrite IH by (apply Z.mul_nonneg_nonneg; try apply Z.pow_nonneg; lia).
    apply IH. assumption.
  - change (2 ^ 1) with 2. apply shr_1_even. assumption.
Qed.

(** Rounding a mantissa whose digits beyond the 53rd are zeros changes
    nothing. *)
Lemma round_aux_exact (sx : bool) (mx q : positive) (ex n : Z) :
  0 <= n ->
  Z.pos mx = 2 ^ n * Z.pos q ->
  2 ^ 52 <= Z.pos q < 2 ^ 53 ->
  -1074 <= ex + n ->
  binary_round_aux prec emax sx (Z.pos mx) ex loc_Exact
  = if ex + n <=? 971 then S754_finite sx q (ex + n) else S754_infinity sx.
Proof.
  intros Hn Hmx Hq He.
  assert (Hpn : 0 < 2 ^ n) by (apply Z.pow_pos_nonneg; lia).
  assert (Hdq : Z.pos (digits2_pos q) = 53)
    by (apply digits2_unique; change (53 - 1) with 52; exact Hq).
  assert (Hd : Z.pos (digits2_pos mx) = n + 53).
  { apply digits2_unique. rewrite Hmx.
    replace (n + 53 - 1) with (n + 52) by lia.
    rewrite !Z.pow_add_r by lia. split.
    - apply Z.mul_le_mono_nonneg_l; lia.
    - apply Z.mul_lt_mono_pos_l; lia. }
  assert (Hstep : forall m e l,
             Z.pos (digits2_pos m) = 53 -> -1074 <= e ->
             shr_fexp prec emax (Z.pos m) e l
             = (shr_record_of_loc (Z.pos m) l, e)).
  { intros m e l Hm Hle. unfold shr_fexp. cbn [Zdigits2]. rewrite Hm.
    rewrite fexp_normal by lia.
    replace (53 + e - 53 - e) with 0 by lia. reflexivity. }
  unfold binary_round_aux.
  assert (H1 : shr_fexp prec emax (Z.pos mx) ex loc_Exact
               = (Build_shr_record (Z.pos q) false false, ex + n)).
  { unfold shr_fexp. cbn [Zdigits2]. rewrite Hd.
    rewrite fexp_normal by lia.
    replace (n + 53 + ex - 53 - ex) with n by lia.
    cbn [shr_record_of_loc]. rewrite Hmx.
    destruct n as [|pn|pn]; [| |lia].
    - cbn [shr]. rewrite Z.pow_0_r, Z.mul_1_l, Z.add_0_r. reflexivity.
    - cbn [shr]. rewrite iter_shr_1_zeros by lia. reflexivity. }
  rewrite H1. cbv iota beta.
  cbn [shr_m loc_of_shr_record round_nearest_even].
  rewrite Hstep by (assumption || lia).
  cbv iota beta. cbn [shr_record_of_loc shr_m].
  change (emax - prec) with 971. reflexivity.
Qed.

(** [float(S)] is [S] itself when [S] has at most 53 digits. *)
Lemma of_int_exact (p m : positive) :
  let d := Z.pos (digits2_pos p) in
  d <= 53 ->
  Z.pos m = Z.pos p * 2 ^ (53 - d) ->
  of_int (Z.pos p) = Returns (S754_finite false m (d - 53)).
Proof.
  intros d Hd Hm.
  pose proof (leading53_bounds p) as Hb. unfold leading53 in Hb. fold d in Hb.
  rewrite (proj2 (Z.leb_le d 53) Hd), <- Hm in Hb.
  pose proof (Pos2Z.is_pos (digits2_pos p)) as Hpos. fold d in Hpos.
  unfold of_int. cbn [binary_normalize]. unfold binary_round, shl_align.
  fold d. rewrite fexp_normal by lia.
  replace (d + 0 - 53 - 0) with (d - 53) by lia.
  replace (d + 0 - 53) with (d - 53) by lia.
  destruct (d - 53) as [|k|k] eqn:Hk; [| lia |].
  - replace (53 - d) with 0 in Hm by lia.
    rewrite Z.pow_0_r, Z.mul_1_r in Hm. injection Hm as ->.
    rewrite (round_aux_exact false p p 0 0);
      [reflexivity | lia | rewrite Z.pow_0_r; lia | exact Hb | lia].
  - assert (Hmz : Pos.iter xO p k = m).
    { apply Pos2Z.inj. rewrite iter_xO, Hm. f_equal. f_equal. lia. }
    rewrite Hmz.
    rewrite (round_aux_exact false m m (Z.neg k) 0);
      [| lia | rewrite Z.pow_0_r; lia | exact Hb | lia].
    rewrite Z.add_0_r.
    destruct (Z.leb_spec (Z.neg k) 971); [reflexivity | lia].
Qed.

(** A quarter of a float, away from the subnormal range. *)
Lemma mul_quarter (m : positive) (e : Z) :
  2 ^ 52 <= Z.pos m < 2 ^ 53 -> -1072 <= e <= 973 ->
  mul (S754_finite false m e) (of_decimal 25 (-2))
  = S754_finite false m (e - 2).
Proof.
  intros Hm He. rewrite literal_025. unfold mul, SFmul. cbn [xorb].
  rewrite (round_aux_exact false (m * 4503599627370496) m (e + -54) 52);
    [| lia | rewrite Pos2Z.inj_mul; change (2 ^ 52) with 4503599627370496;
             lia | exact Hm | lia].
  replace (e + -54 + 52) with (e - 2) by lia.
  destruct (Z.leb_spec (e - 2) 971); [reflexivity | lia].
Qed.

(** Half of an integer of at most 53 digits. *)
Lemma truediv_2_exact (p m : positive) :
  let d := Z.pos (digits2_pos p) in
  d <= 53 ->
  Z.pos m = Z.pos p * 2 ^ (53 - d) ->
  int_truediv (Z.pos p) 2 = Returns (S754_finite false m (d - 54)).
Proof.
  intros d Hd Hm.
  pose proof (leading53_bounds p) as Hb. unfold leading53 in Hb. fold d in Hb.
  rewrite (proj2 (Z.leb_le d 53) Hd), <- Hm in Hb.
  pose proof (Pos2Z.is_pos (digits2_pos p)) as Hpos. fold d in Hpos.
  unfold int_truediv. cbn [Z.eqb exact]. unfold SFdiv.
  rewrite div_core_2. cbv zeta. fold d.
  replace (Z.max (55 - d) 0) with (55 - d) by lia.
  assert (Hscaled : Z.pos p * 2 ^ (55 - d) = Z.pos (m~0) * 2).
  { replace (55 - d) with (53 - d + 2) by lia.
    rewrite Z.pow_add_r, Z.mul_assoc, <- Hm by lia.
    change (2 ^ 2) with 4. change (Z.pos m~0) with (2 * Z.pos m). lia. }
  rewrite Hscaled, Z.div_mul, Z.mod_mul by lia.
  cbv iota beta. cbn [xorb].
  change (new_location 2 0) with loc_Exact.
  rewrite (round_aux_exact false (m~0) m (- (55 - d)) 1);
    [| lia | change (2 ^ 1) with 2; reflexivity | exact Hb | lia].
  replace (- (55 - d) + 1) with (d - 54) by lia.
  destruct (Z.leb_spec (d - 54) 971); [reflexivity | lia].
Qed.

End Exact.

(** X11. For every size below [2^53] the arithmetic is exact where it
    can be: [center_x] is exactly half the size and [top_y] exactly a
    quarter of it. *)
Theorem small_sizes_halved_exactly (S : Z) :
  0 < S < 2 ^ 53 ->
  exists t,
    triangle_points S = Returns t
    /\ is_ratio (center_x t) S 2 = true
    /\ is_ratio (top_y t) S 4 = true.
Proof.
  intros [Hlo Hhi]. destruct S as [|p|p]; [lia | | lia].
  pose proof (Rounding.digits2_bounds p) as [Dlo Dhi].
  pose proof (Pos2Z.is_pos (digits2_pos p)) as Hpos.
  set (d := Z.pos (digits2_pos p)) in *.
  assert (Hd : d <= 53).
  { destruct (Z.le_gt_cases d 53) as [H|H]; [exact H|].
    assert (2 ^ 53 <= 2 ^ (d - 1)) by (apply Z.pow_le_mono_r; lia). lia. }
  pose proof (Rounding.leading53_bounds p) as Hb.
  unfold leading53 in Hb. fold d in Hb.
  rewrite (proj2 (Z.leb_le d 53) Hd) in Hb.
  destruct (Z.pos p * 2 ^ (53 - d)) as [|m|m] eqn:Hm; [lia | | lia].
  symmetry in Hm.
  unfold triangle_points, PyFloat.int_mul.
  rewrite (Exact.truediv_2_exact p m Hd Hm), (Exact.of_int_exact p m Hd Hm).
  fold d. cbn [rbind rmap].
  eexists. split; [reflexivity|].
  cbn [center_x top_y]. rewrite Exact.mul_quarter by lia.
  assert (Hp2 : 2 ^ (55 - d) = 4 * 2 ^ (53 - d)).
  { replace (55 - d) with (2 + (53 - d)) by lia.
    rewrite Z.pow_add_r by lia. reflexivity. }
  assert (Hp1 : 2 ^ (54 - d) = 2 * 2 ^ (53 - d)).
  { replace (54 - d) with (1 + (53 - d)) by lia.
    rewrite Z.pow_add_r by lia. reflexivity. }
  unfold is_ratio.
  destruct (Z.leb_spec 0 (d - 54)) as [H|_]; [lia|].
  destruct (Z.leb_spec 0 (d - 53 - 2)) as [H|_]; [lia|].
  replace (- (d - 54)) with (54 - d) by lia.
  replace (- (d - 53 - 2)) with (55 - d) by lia.
  rewrite Hp1, Hp2, Hm. split; apply Z.eqb_eq; ring.
Qed.

Lemma small_sizes_halved_exactly_witness :
  exists t,
    triangle_points 20 = Returns t
    /\ is_ratio (center_x t) 20 2 = true
    /\ is_ratio (top_y t) 20 4 = true.
Proof. apply (small_sizes_halved_exactly 20). lia. Defined.
